(** * The MongoDB vector-store adapter of embedchain

    A shallow embedding of [embedchain/vectordb/mongodb.py] (class [MongoDB])
    and [embedchain/config/vector_db/mongodb.py] (class [MongoDbConfig]).

    Python values are an inductive type, dictionaries are finite maps with
    string keys, exceptions are a result type, and the methods of the adapter
    are computations in a state-and-exception monad over a [world] made of the
    Python heap (the metadata mappings the caller owns), the collections of
    the document store and the log of the calls sent to the store client. *)

From stdpp Require Import gmap strings list fin_maps.
From Stdlib Require Import ZArith.

Set Warnings "-register-all".

Local Open Scope Z_scope.

(** ** Python values *)

Inductive pyval : Type :=
  | PNone
  | PBool (b : bool)
  | PInt (z : Z)
  | PStr (s : string)
  | PList (l : list pyval)
  | PDict (d : gmap string pyval).

(** A Python [dict] with string keys. *)
Abbreviation pydict := (gmap string pyval).

(** [copy.deepcopy]: rebuilds every container of the value. *)
Fixpoint deepcopy (v : pyval) : pyval :=
  match v with
  | PList l => PList (deepcopy <$> l)
  | PDict d => PDict (deepcopy <$> d)
  | _ => v
  end.

(** The number of constructors of a value: the measure of the inductions on
    values. *)
Fixpoint pyval_size (v : pyval) : nat :=
  match v with
  | PList l => S (foldr (λ x n, (pyval_size x + n)%nat) 0%nat l)
  | PDict d => S (map_fold (λ _ x n, (pyval_size x + n)%nat) 0%nat d)
  | _ => 1%nat
  end.

(** [copy.deepcopy] at a dictionary. *)
Definition deepcopy_dict (d : pydict) : pydict := deepcopy <$> d.

(** Truth value of an optional list ([if ids:]) and of an optional
    dictionary ([if where:]): [None] and the empty container are false. *)
Definition truthy_list {A} (l : option (list A)) : bool :=
  match l with
  | Some (_ :: _) => true
  | _ => false
  end.

Definition truthy_dict (d : option pydict) : bool :=
  match d with
  | Some m => if decide (m = ∅) then false else true
  | None => false
  end.

(** [d.update(other)]: the entries of [other] are written into [d]. *)
Definition update (d other : pydict) : pydict := other ∪ d.

(** ** Exceptions *)

Inductive exn : Type :=
  | TypeError
  | ValueError
  | AttributeError
  | IndexError
  | CollectionInvalid
  | ImportError.

Inductive result (A : Type) : Type :=
  | Ok (a : A)
  | Raise (e : exn).
Arguments Ok {A} a.
Arguments Raise {A} e.

(** ** Store records and filters *)

(** A record of the collection: the four fields [add] writes, and the
    ["score"] field a store may attach to the records it returns. *)
Record record : Type := Record_ {
  identifier : string;
  text : string;
  metadata : pydict;
  embedding : pyval;
  score : option pyval
}.

(** A store filter: a dictionary from field paths to conditions. *)
Abbreviation filter_doc := (gmap string pyval).

(** [{"metadata." + k: v for k, v in where.items()}] *)
Definition metadata_filter (where_ : pydict) : filter_doc :=
  foldl (λ q kv, <["metadata." +:+ kv.1 := kv.2]> q) ∅ (map_to_list where_).

(** [{"$in": ids}] *)
Definition in_cond (ids : list string) : pyval :=
  PDict {[ "$in" := PList (PStr <$> ids) ]}.

(** [{"$near": v}] *)
Definition near_cond (v : pyval) : pyval := PDict {[ "$near" := v ]}.

(** ** Configuration: [MongoDbConfig] *)

Record MongoDbConfig : Type := MongoDbConfig_ {
  uri : option string;
  collection_name : string;
  username : option string;
  database_name : option string;
  password : option string;
  replica_set : option string;
  retry_writes : option bool;
  app_name : option string
}.

Definition with_collection_name (name : string) (c : MongoDbConfig) : MongoDbConfig :=
  {| uri := uri c;
     collection_name := name;
     username := username c;
     database_name := database_name c;
     password := password c;
     replica_set := replica_set c;
     retry_writes := retry_writes c;
     app_name := app_name c |}.

(** ** The world: heap, store and call log *)

(** Addresses of the dictionaries the caller owns. *)
Abbreviation loc := positive.

(** The calls the adapter sends to the store client. *)
Inductive call : Type :=
  | CallMongoClient (uri : option string)
  | CallListCollectionNames
  | CallCreateCollection (name : string)
  | CallDropCollection (name : string)
  | CallInsertOne (name : string) (doc : record)
  | CallFind (name : string) (q : filter_doc) (limit : option Z)
  | CallDeleteMany (name : string) (q : filter_doc)
  | CallCountDocuments (name : string) (q : filter_doc).

Record world : Type := World {
  heap : gmap loc pydict;
  collections : gmap string (list record);
  calls : list call;
  MONGODB_URI : option string
}.

Definition set_heap (h : gmap loc pydict) (w : world) : world :=
  {| heap := h; collections := collections w; calls := calls w;
     MONGODB_URI := MONGODB_URI w |}.

Definition set_collections (cs : gmap string (list record)) (w : world) : world :=
  {| heap := heap w; collections := cs; calls := calls w;
     MONGODB_URI := MONGODB_URI w |}.

Definition log (c : call) (w : world) : world :=
  {| heap := heap w; collections := collections w; calls := calls w ++ [c];
     MONGODB_URI := MONGODB_URI w |}.

(** ** The monad of the methods: state and exceptions *)

Definition M (A : Type) : Type := world → result A * world.

#[global] Instance M_ret : MRet M := λ A a w, (Ok a, w).

#[global] Instance M_bind : MBind M := λ A B k m w,
  match m w with
  | (Ok a, w') => k a w'
  | (Raise e, w') => (Raise e, w')
  end.

Definition raise {A} (e : exn) : M A := λ w, (Raise e, w).

Definition gets {A} (f : world → A) : M A := λ w, (Ok (f w), w).

Definition modify (f : world → world) : M unit := λ w, (Ok tt, f w).

(** An attribute of an object: reading one that is not there (one that has not
    been assigned yet, or any attribute of [None]) is an [AttributeError]. *)
Definition attr {A} (o : option A) : M A :=
  match o with
  | Some a => mret a
  | None => raise AttributeError
  end.

(** [for x in l: body x] *)
Fixpoint for_each {A} (body : A → M unit) (l : list A) : M unit :=
  match l with
  | [] => mret tt
  | x :: l' => body x ;; for_each body l'
  end.

(** [zip] of four lists: as long as the shortest. *)
Fixpoint zip4 {A B C D} (la : list A) (lb : list B) (lc : list C) (ld : list D)
    : list (A * B * C * D) :=
  match la, lb, lc, ld with
  | a :: la', b :: lb', c :: lc', d :: ld' => (a, b, c, d) :: zip4 la' lb' lc' ld'
  | _, _, _, _ => []
  end.

(** ** External collaborators

    The adapter delegates to an embedding function and to a document-store
    client; neither is part of the sources.  What the adapter needs from them
    is gathered in one interface: the array type the embedding function
    returns with its [tolist] method, how the store decides that a record
    satisfies one entry of a filter, how a cursor applies its limit, the
    collection name [BaseVectorDbConfig.__init__] leaves in the configuration
    for the name the constructor of [MongoDbConfig] was given, and what the
    constructor of the base class [BaseVectorDB] does with the configuration
    it is called with. *)

Class Collaborators : Type := {
  ndarray : Type;
  tolist : ndarray → pyval;
  entry_matches : string → pyval → record → bool;
  apply_limit : option Z → list record → list record;
  base_collection_name : option string → string;
  BaseVectorDB__init__ : MongoDbConfig → M unit
}.

(** An embedder: the object whose [embedding_fn] maps texts to vectors. *)
Record Embedder `{Collaborators} : Type := Embedder_ {
  embedding_fn : list string → list ndarray
}.

(** [MongoDbConfig.__init__]; the arguments are in the order of the
    signature. *)
Definition MongoDbConfig__init__ `{Collaborators}
    (collection_name uri database_name username password replica_set : option string)
    (retry_writes : option bool) (app_name : option string) : MongoDbConfig :=
  {| uri := uri;
     collection_name := base_collection_name collection_name;
     username := username;
     database_name := database_name;
     password := password;
     replica_set := replica_set;
     retry_writes := retry_writes;
     app_name := app_name |}.

(** [MongoDbConfig()]: every argument at its default. *)
Definition MongoDbConfig_default `{Collaborators} : MongoDbConfig :=
  MongoDbConfig__init__ None None None None None None (Some true) None.

(** ** The document-store client

    A reference model of the client the adapter calls: a database is a finite
    map from collection names to the list of their records, in insertion
    order.  A record satisfies a filter when it satisfies every entry of it
    (so the empty filter selects every record); what one entry means is left
    to [entry_matches]. *)

Definition matches `{Collaborators} (q : filter_doc) (r : record) : bool :=
  forallb (λ kc, entry_matches kc.1 kc.2 r) (map_to_list q).

(** The records of a collection; a collection that does not exist has none. *)
Definition collection (name : string) (w : world) : list record :=
  default [] (collections w !! name).

(** [MongoClient(uri)] *)
Definition MongoClient (uri : option string) : M unit :=
  modify (log (CallMongoClient uri)).

(** [client[name]]: the client takes the name of a database, and refuses a
    name that is not a string. *)
Definition get_database (name : option string) : M unit :=
  match name with
  | Some _ => mret tt
  | None => raise TypeError
  end.

(** [db.list_collection_names()] *)
Definition list_collection_names : M (list string) :=
  λ w, (Ok ((map_to_list (collections w)).*1), log CallListCollectionNames w).

(** [db.create_collection(name)]: refused when the collection exists. *)
Definition create_collection (name : string) : M unit :=
  λ w, match collections w !! name with
       | Some _ => (Raise CollectionInvalid, log (CallCreateCollection name) w)
       | None =>
           (Ok tt, log (CallCreateCollection name)
                       (set_collections (<[name := []]> (collections w)) w))
       end.

(** [db.drop_collection(name)] *)
Definition drop_collection (name : string) : M unit :=
  modify (λ w, log (CallDropCollection name)
                   (set_collections (delete name (collections w)) w)).

(** [db[name].insert_one(doc)]: creates the collection when needed. *)
Definition insert_one (name : string) (doc : record) : M unit :=
  modify (λ w, log (CallInsertOne name doc)
                   (set_collections
                      (<[name := collection name w ++ [doc]]> (collections w)) w)).

(** [db[name].delete_many(q)] *)
Definition delete_many `{Collaborators} (name : string) (q : filter_doc) : M unit :=
  modify (λ w, log (CallDeleteMany name q)
                   (set_collections
                      (alter (filter (λ r, negb (matches q r))) name (collections w)) w)).

(** [db[name].count_documents(q)] *)
Definition count_documents `{Collaborators} (name : string) (q : filter_doc) : M Z :=
  λ w, (Ok (Z.of_nat (length (filter (λ r, matches q r) (collection name w)))),
        log (CallCountDocuments name q) w).

(** A cursor: the query it will send once it is iterated. *)
Record cursor : Type := Cursor {
  cur_collection : string;
  cur_filter : filter_doc;
  cur_limit : option Z
}.

(** The cursor of [db[name].find(q)], or of a [find] with the limit [n] when
    [limit] is [Some n]. *)
Definition find (name : string) (q : filter_doc) (limit : option Z) : cursor :=
  {| cur_collection := name; cur_filter := q; cur_limit := limit |}.

(** [db[name].find(q, limit=limit)] with the limit the caller passes: the
    client checks its arguments when it builds the cursor, and a limit that
    is not an int (Python's [None]) is a [TypeError]; the refused call is in
    the log all the same. *)
Definition find_limit (name : string) (q : filter_doc) (limit : option Z) : M cursor :=
  match limit with
  | Some n => mret (find name q (Some n))
  | None => λ w, (Raise TypeError, log (CallFind name q None) w)
  end.

(** [cursor.limit(n)] *)
Definition limit (n : Z) (c : cursor) : cursor :=
  {| cur_collection := cur_collection c; cur_filter := cur_filter c;
     cur_limit := Some n |}.

(** [for doc in cursor]: the records the store returns for the cursor. *)
Definition iterate `{Collaborators} (c : cursor) : M (list record) :=
  λ w, (Ok (apply_limit (cur_limit c)
              (filter (λ r, matches (cur_filter c) r)
                 (collection (cur_collection c) w))),
        log (CallFind (cur_collection c) (cur_filter c) (cur_limit c)) w).

(** ** Dictionaries on the heap *)

(** [obj[k] = v] on the object at [l]; an object that is not a dictionary
    does not support item assignment. *)
Definition setitem (l : loc) (k : string) (v : pyval) : M unit :=
  λ w, match heap w !! l with
       | Some d => (Ok tt, set_heap (<[l := <[k := v]> d]> (heap w)) w)
       | None => (Raise TypeError, w)
       end.

(** The contents of the dictionary at [l]. *)
Definition load (l : loc) : M pydict :=
  λ w, match heap w !! l with
       | Some d => (Ok d, w)
       | None => (Raise TypeError, w)
       end.

(** ** The adapter: class [MongoDB] *)

(** An attribute of an object: it holds a value once it has been assigned. *)
Inductive attribute (A : Type) : Type :=
  | Unassigned
  | Assigned (v : A).
Arguments Unassigned {A}.
Arguments Assigned {A} v.

(** Reading an attribute that has not been assigned is an [AttributeError]. *)
Definition getattr {A} (a : attribute A) : M A :=
  match a with
  | Assigned v => mret v
  | Unassigned => raise AttributeError
  end.

(** The attributes of an adapter object the methods read.  [embedder] is
    the attribute the owner of the adapter assigns before [_initialize], an
    embedder or Python's [None]; [collection_name] is [None] as long as it
    has not been assigned. *)
Record MongoDB `{Collaborators} : Type := MongoDB_ {
  self_config : MongoDbConfig;
  self_embedder_attr : attribute (option Embedder);
  self_collection_name : option string
}.

(** The embedder of the adapter, when its attribute holds one. *)
Definition self_embedder `{Collaborators} (self : MongoDB) : option Embedder :=
  match self_embedder_attr self with
  | Assigned (Some e) => Some e
  | _ => None
  end.

(** What [get] returns: [{"ids": ..., "metadatas": ...}]. *)
Record get_result : Type := GetResult {
  result_ids : list string;
  result_metadatas : list pydict
}.

(** An argument of the constructor: a Python value or an instance of the
    configuration class. *)
Inductive pyobj : Type :=
  | Value (v : pyval)
  | ConfigInstance (c : MongoDbConfig).

(** A tuple of the lists [add] zips: identifier, document, metadata mapping
    and embedding. *)
Abbreviation item := (string * string * loc * ndarray)%type.

(** An element of the list [query] returns: a text, or a text with its
    metadata. *)
Abbreviation context := (string + string * pydict)%type.

Module MongoDB.
Section methods.
Context `{Collaborators}.

Definition with_name (name : string) (self : MongoDB) : MongoDB :=
  {| self_config := self_config self;
     self_embedder_attr := self_embedder_attr self;
     self_collection_name := Some name |}.

(** The constructor.  It returns an adapter object when it ends without an
    exception; [self.db = self.client[...]] is the selection of the database
    and [super().__init__] the constructor of the base class. *)
Definition __init__ (config : pyobj) : M MongoDB :=
  config ← match config with
            | Value PNone => mret MongoDbConfig_default
            | ConfigInstance c => mret c
            | Value _ => raise TypeError
            end;
  uri ← gets MONGODB_URI;
  MongoClient uri;;
  get_database (database_name config);;
  BaseVectorDB__init__ config;;
  mret {| self_config := config;
          self_embedder_attr := Unassigned;
          self_collection_name := None |}.

Definition _get_or_create_collection (self : MongoDB) : string :=
  collection_name (self_config self).

(** [if not self.embedder] reads the attribute first, then tests it. *)
Definition _initialize (self : MongoDB) : M MongoDB :=
  embedder ← getattr (self_embedder_attr self);
  match embedder with
  | None => raise ValueError
  | Some _ =>
      let self := with_name (_get_or_create_collection self) self in
      name ← attr (self_collection_name self);
      names ← list_collection_names;
      if bool_decide (name ∈ names) then mret self
      else create_collection name;; mret self
  end.

Definition get (self : MongoDB) (ids : option (list string))
    (where_ : option pydict) (limit : option Z) : M get_result :=
  let query : filter_doc := ∅ in
  let query :=
    if truthy_list ids then <["identifier" := in_cond (default [] ids)]> query
    else query in
  let query :=
    if truthy_dict where_ then update query (metadata_filter (default ∅ where_))
    else query in
  name ← attr (self_collection_name self);
  cursor ← find_limit name query limit;
  cursor ← iterate cursor;
  let '(existing_ids, metadatas) :=
    foldl (λ acc doc, (acc.1 ++ [identifier doc], acc.2 ++ [metadata doc]))
          ([], []) cursor in
  mret {| result_ids := existing_ids; result_metadatas := metadatas |}.

(** The body of the loop of [add], for one tuple of the zipped lists. *)
Definition add_one (self : MongoDB) (it : item) : M unit :=
  let '(id, document, metadata, embedding) := it in
  setitem metadata "text" (PStr document);;
  copied ← load metadata;
  let doc := {| identifier := id;
                text := document;
                metadata := deepcopy_dict copied;
                embedding := tolist embedding;
                score := None |} in
  name ← attr (self_collection_name self);
  insert_one name doc.

Definition add (self : MongoDB) (documents : list string)
    (metadatas : list loc) (ids : list string) : M unit :=
  embedder ← attr (self_embedder self);
  let embeddings := embedding_fn embedder documents in
  for_each (add_one self) (zip4 ids documents metadatas embeddings).

Definition query (self : MongoDB) (input_query : string) (n_results : Z)
    (where_ : option pydict) (citations : bool) : M (list context) :=
  embedder ← attr (self_embedder self);
  query_vector ← match embedding_fn embedder [input_query] with
                  | v :: _ => mret v
                  | [] => raise IndexError
                  end;
  let query : filter_doc := {[ "embedding" := near_cond (tolist query_vector) ]} in
  let query :=
    if truthy_dict where_ then update query (metadata_filter (default ∅ where_))
    else query in
  name ← attr (self_collection_name self);
  cursor ← iterate (limit n_results (find name query None));
  mret (foldl
          (λ contexts doc,
             let context := text doc in
             if citations then
               let metadata := metadata doc in
               let metadata := <["score" := default (PInt 0) (score doc)]> metadata in
               contexts ++ [inr (context, metadata)]
             else contexts ++ [inl context])
          [] cursor).

Definition count (self : MongoDB) : M Z :=
  name ← attr (self_collection_name self);
  count_documents name ∅.

Definition reset (self : MongoDB) : M MongoDB :=
  name ← attr (self_collection_name self);
  drop_collection name;;
  _initialize self.

Definition set_collection_name (self : MongoDB) (name : pyval) : M MongoDB :=
  match name with
  | PStr name =>
      let self := {| self_config := with_collection_name name (self_config self);
                     self_embedder_attr := self_embedder_attr self;
                     self_collection_name := self_collection_name self |} in
      mret (with_name (_get_or_create_collection self) self)
  | _ => raise TypeError
  end.

Definition _generate_query (where_ : pydict) : filter_doc :=
  foldl (λ query '(key, value), <["metadata." +:+ key := value]> query)
        ∅ (map_to_list where_).

Definition delete (self : MongoDB) (where_ : option pydict) : M unit :=
  where_ ← attr where_;
  let query := metadata_filter where_ in
  name ← attr (self_collection_name self);
  delete_many name query.

End methods.
End MongoDB.

(** ** The import of the configuration class *)

(** The names the module [embedchain.config.vector_db.mongodb] binds at its
    top level: its three imports and the class it defines. *)
Definition config_module_names : list string :=
  ["Optional"; "BaseVectorDbConfig"; "register_deserializable"; "MongoDbConfig"].

(** [from module import name], for a module that binds [names]. *)
Definition import_from (names : list string) (name : string) : result unit :=
  if bool_decide (name ∈ names) then Ok tt else Raise ImportError.

(** Line 10 of the adapter:
    [from embedchain.config.vector_db.mongodb import MongoDBConfig]. *)
Definition import_MongoDBConfig : result unit :=
  import_from config_module_names "MongoDBConfig".

(** ** Predicates of the properties *)

(** A value without parts: [None], a boolean, an integer or a string. *)
Definition atom (v : pyval) : bool :=
  match v with
  | PList _ | PDict _ => false
  | _ => true
  end.

(** A flat dictionary: its values are atoms, so no dictionary is part of
    it. *)
Definition flat (d : pydict) : Prop := map_Forall (λ _ v, atom v = true) d.


(** [q] is the translation of [where_] on top of the entries [fixed] the
    method puts into the filter itself: every key [k] of [where_] is in [q]
    as ["metadata." + k] with its value, [q] holds nothing else, and no two
    keys of [where_] share an entry. *)
Definition translates (where_ : pydict) (fixed q : filter_doc) : Prop :=
  (∀ k v, where_ !! k = Some v → q !! ("metadata." +:+ k) = Some v) ∧
  (∀ key c, q !! key = Some c →
     fixed !! key = Some c ∨ ∃ k, key = "metadata." +:+ k ∧ where_ !! k = Some c) ∧
  size q = (size where_ + size fixed)%nat.

(** The record [add] stores for an identifier, a document, the mapping [m] the
    caller gave for it and the embedding of the document. *)
Definition stored_record `{Collaborators} (id document : string) (m : pydict)
    (v : ndarray) : record :=
  {| identifier := id;
     text := document;
     metadata := <["text" := PStr document]> m;
     embedding := tolist v;
     score := None |}.

(** A heap without the ["text"] keys of its dictionaries: what [add] leaves
    as it is. *)
Definition forget_text (h : gmap loc pydict) : gmap loc pydict :=
  base.delete "text" <$> h.

(** The adapter is consistent when the collection name it works on, once
    assigned, is the one of its configuration. *)
Definition consistent `{Collaborators} (self : MongoDB) : Prop :=
  match self_collection_name self with
  | Some name => name = collection_name (self_config self)
  | None => True
  end.

(** The steps of the monad, for proofs that run a method. *)
Ltac run :=
  repeat (progress (unfold mbind, M_bind, mret, M_ret, raise, attr, gets, modify,
                    getattr, get_database, find_limit,
                    MongoClient, list_collection_names, drop_collection,
                    insert_one, delete_many, count_documents, iterate, find, limit;
                    simpl)).


(** ** A reference instance of the collaborators

    Equality of atoms stands for the store's comparison of a field with a
    value, ["$in"] for membership, and any other entry (["$near"], which
    orders the records) selects every record; a limit of [0] is no limit. *)

Definition atom_eqb (a b : pyval) : bool :=
  match a, b with
  | PNone, PNone => true
  | PBool x, PBool y => Bool.eqb x y
  | PInt x, PInt y => Z.eqb x y
  | PStr x, PStr y => String.eqb x y
  | _, _ => false
  end.

Fixpoint strip_prefix (p s : string) : option string :=
  match p, s with
  | EmptyString, _ => Some s
  | String a p', String b s' => if Ascii.eqb a b then strip_prefix p' s' else None
  | String _ _, EmptyString => None
  end.

Definition field_matches (c v : pyval) : bool :=
  match c with
  | PDict d =>
      match d !! "$in" with
      | Some (PList l) => existsb (atom_eqb v) l
      | _ => false
      end
  | _ => atom_eqb c v
  end.

Definition reference_entry_matches (key : string) (c : pyval) (r : record) : bool :=
  if String.eqb key "identifier" then field_matches c (PStr (identifier r))
  else match strip_prefix "metadata." key with
       | Some k =>
           match metadata r !! k with
           | Some v => field_matches c v
           | None => false
           end
       | None => true
       end.

Definition reference_apply_limit (limit : option Z) (l : list record) : list record :=
  match limit with
  | None => l
  | Some n => if n =? 0 then l else take (Z.abs_nat n) l
  end.

Definition reference : Collaborators :=
  {| ndarray := list Z;
     tolist := λ v, PList (PInt <$> v);
     entry_matches := reference_entry_matches;
     apply_limit := reference_apply_limit;
     base_collection_name := default "embedchain_store";
     BaseVectorDB__init__ := λ _, mret tt |}.

(** An embedder, an adapter and a world to run the methods on. *)
Definition demo_embedder : @Embedder reference :=
  {| embedding_fn := λ documents, (λ d, [Z.of_nat (String.length d)]) <$> documents |}.

Definition demo_self : @MongoDB reference :=
  {| self_config := @MongoDbConfig_default reference;
     self_embedder_attr := Assigned (Some demo_embedder);
     self_collection_name := Some "embedchain_store" |}.

Definition demo_record (id : string) (kind : string) : record :=
  {| identifier := id;
     text := "text of " +:+ id;
     metadata := {[ "kind" := PStr kind ]};
     embedding := PList [PInt 1];
     score := None |}.

Definition demo_world : world :=
  {| heap := {[ 1%positive := {[ "kind" := PStr "note" ]};
                2%positive := {[ "kind" := PStr "page" ]} ]};
     collections := {[ "embedchain_store" :=
                         [demo_record "a" "note"; demo_record "b" "page";
                          demo_record "c" "note"] ]};
     calls := [];
     MONGODB_URI := Some "mongodb://localhost" |}.
(** * Properties *)

(** ** Filter translation *)

#[global] Instance append_inj (s : string) : Inj (=) (=) (String.append s).
Proof.
  intros a b. induction s as [|c s IH]; simpl; [done|].
  intros Heq. injection Heq as Heq. auto.
Qed.

Lemma append_cons_ne (c c' : Ascii.ascii) (s t u : string) :
  c ≠ c' → String c s +:+ t ≠ String c' u.
Proof. intros Hne Heq. simpl in Heq. injection Heq as Hc _. done. Qed.

Section insertion_loop.
Context {A : Type} (f : string → string) `{!Inj (=) (=) f}.

Lemma foldl_insert_union (l : list (string * A)) (q0 : gmap string A) :
  NoDup l.*1 →
  foldl (λ q kv, <[f kv.1 := kv.2]> q) q0 l
  = list_to_map (prod_map f id <$> l) ∪ q0.
Proof.
  revert q0. induction l as [|[k v] l IH]; intros q0 Hnd; simpl.
  - by rewrite (left_id_L ∅ (∪)).
  - apply NoDup_cons in Hnd as [Hk Hnd].
    rewrite IH by done. rewrite <-insert_union_l.
    rewrite insert_union_r; [done|].
    apply not_elem_of_list_to_map_1.
    rewrite <-list_fmap_compose. intros Hin.
    apply list_elem_of_fmap in Hin as [[k' v'] [Heq Hin]]. simpl in Heq.
    apply (inj f) in Heq. subst k'. apply Hk.
    apply list_elem_of_fmap. by exists (k, v').
Qed.

Lemma foldl_insert_kmap (m : gmap string A) :
  foldl (λ q kv, <[f kv.1 := kv.2]> q) (∅ : gmap string A) (map_to_list m)
  = kmap f m.
Proof.
  rewrite foldl_insert_union by apply NoDup_fst_map_to_list.
  by rewrite (right_id_L ∅ (∪)).
Qed.

Lemma size_kmap (m : gmap string A) : size (kmap f m : gmap string A) = size m.
Proof.
  unfold kmap. rewrite map_size_list_to_map.
  - by rewrite length_fmap, length_map_to_list.
  - rewrite <-list_fmap_compose.
    rewrite (list_fmap_ext _ (f ∘ fst) (map_to_list m)) by (by intros ? [??]).
    rewrite list_fmap_compose. apply (NoDup_fmap_2 f), NoDup_fst_map_to_list.
Qed.

End insertion_loop.

Lemma metadata_filter_kmap (where_ : pydict) :
  metadata_filter where_ = kmap (String.append "metadata.") where_.
Proof. apply (foldl_insert_kmap (String.append "metadata.")). Qed.

Lemma lookup_metadata_filter (where_ : pydict) (k : string) :
  metadata_filter where_ !! ("metadata." +:+ k) = where_ !! k.
Proof. rewrite metadata_filter_kmap. apply (lookup_kmap (String.append "metadata.")). Qed.

Lemma lookup_metadata_filter_Some (where_ : pydict) (key : string) (c : pyval) :
  metadata_filter where_ !! key = Some c ↔
  ∃ k, key = "metadata." +:+ k ∧ where_ !! k = Some c.
Proof. rewrite metadata_filter_kmap. apply (lookup_kmap_Some (String.append "metadata.")). Qed.

Lemma size_metadata_filter (where_ : pydict) :
  size (metadata_filter where_) = size where_.
Proof. rewrite metadata_filter_kmap. apply size_kmap, _. Qed.

Lemma metadata_filter_empty : metadata_filter ∅ = ∅.
Proof. unfold metadata_filter. by rewrite map_to_list_empty. Qed.

Lemma _generate_query_metadata_filter (where_ : pydict) :
  MongoDB._generate_query where_ = metadata_filter where_.
Proof.
  unfold MongoDB._generate_query, metadata_filter.
  generalize (∅ : filter_doc).
  induction (map_to_list where_) as [|[k v] l IH]; intros q; simpl; [done|].
  apply IH.
Qed.

Lemma translates_metadata_filter (where_ : pydict) :
  translates where_ ∅ (metadata_filter where_).
Proof.
  split; [|split].
  - intros k v Hk. by rewrite lookup_metadata_filter.
  - intros key c Hc. right. by apply lookup_metadata_filter_Some.
  - rewrite size_metadata_filter, map_size_empty. lia.
Qed.

Lemma translates_update (where_ : pydict) (key : string) (c : pyval) :
  (∀ k, key ≠ "metadata." +:+ k) →
  translates where_ {[ key := c ]} (update {[ key := c ]} (metadata_filter where_)).
Proof.
  intros Hkey. unfold update. split; [|split].
  - intros k v Hk. apply lookup_union_Some_l. by rewrite lookup_metadata_filter.
  - intros key' c' Hc'. apply lookup_union_Some_raw in Hc' as [Hc'|[_ Hc']].
    + right. by apply lookup_metadata_filter_Some.
    + by left.
  - rewrite map_size_disj_union.
    + by rewrite size_metadata_filter.
    + apply map_disjoint_singleton_r.
      destruct (metadata_filter where_ !! key) as [c'|] eqn:Hc'; [|done].
      apply lookup_metadata_filter_Some in Hc' as [k [-> _]]. by destruct (Hkey k).
Qed.

Lemma translates_empty (fixed : filter_doc) : translates ∅ fixed fixed.
Proof.
  split; [|split].
  - intros k v Hk. by rewrite lookup_empty in Hk.
  - intros key c Hc. by left.
  - by rewrite map_size_empty.
Qed.

Lemma truthy_dict_false (where_ : pydict) :
  truthy_dict (Some where_) = false → where_ = ∅.
Proof. simpl. by destruct (decide (where_ = ∅)). Qed.

Section sent_filters.
Context `{Collaborators}.

(** C1 (the helper and [delete]). *)
Lemma delete_filter (self : MongoDB) (name : string) (where_ : pydict) (w : world) :
  self_collection_name self = Some name →
  ∃ q, calls (MongoDB.delete self (Some where_) w).2 = calls w ++ [CallDeleteMany name q] ∧
       translates where_ ∅ q.
Proof.
  intros Hname. exists (metadata_filter where_). split.
  - unfold MongoDB.delete. run. rewrite Hname. by run.
  - apply translates_metadata_filter.
Qed.

End sent_filters.

Section running.
Context `{Collaborators}.

Lemma get_loop (cursor : list record) (a : list string) (b : list pydict) :
  foldl (λ acc doc, (acc.1 ++ [identifier doc], acc.2 ++ [metadata doc])) (a, b) cursor
  = (a ++ (identifier <$> cursor), b ++ (metadata <$> cursor)).
Proof.
  revert a b. induction cursor as [|doc cursor IH]; intros a b; simpl.
  - by rewrite !app_nil_r.
  - rewrite IH. simpl. by rewrite <-!app_assoc.
Qed.

(** The filter [get] builds, and what it returns for a limit that is an
    int. *)
Lemma get_run (self : MongoDB) (name : string) (ids : option (list string))
    (where_ : option pydict) (n : Z) (w : world) :
  self_collection_name self = Some name →
  let fixed : filter_doc :=
    if truthy_list ids then {[ "identifier" := in_cond (default [] ids) ]} else ∅ in
  let q := if truthy_dict where_ then update fixed (metadata_filter (default ∅ where_))
           else fixed in
  let cursor := apply_limit (Some n) (filter (λ r, matches q r) (collection name w)) in
  MongoDB.get self ids where_ (Some n) w
  = (Ok {| result_ids := identifier <$> cursor; result_metadatas := metadata <$> cursor |},
     log (CallFind name q (Some n)) w).
Proof.
  intros Hname. unfold MongoDB.get. run. rewrite Hname. run.
  rewrite get_loop. simpl.
  by destruct (truthy_list ids).
Qed.

(** Without a limit ([limit=None], the default of [get]) the client refuses
    the call [get] makes. *)
Lemma get_run_None (self : MongoDB) (name : string) (ids : option (list string))
    (where_ : option pydict) (w : world) :
  self_collection_name self = Some name →
  let fixed : filter_doc :=
    if truthy_list ids then {[ "identifier" := in_cond (default [] ids) ]} else ∅ in
  let q := if truthy_dict where_ then update fixed (metadata_filter (default ∅ where_))
           else fixed in
  MongoDB.get self ids where_ None w = (Raise TypeError, log (CallFind name q None) w).
Proof.
  intros Hname. unfold MongoDB.get. run. rewrite Hname. run.
  by destruct (truthy_list ids).
Qed.

(** The call [get] sends, whatever the limit. *)
Lemma get_calls (self : MongoDB) (name : string) (ids : option (list string))
    (where_ : option pydict) (limit : option Z) (w : world) :
  self_collection_name self = Some name →
  let fixed : filter_doc :=
    if truthy_list ids then {[ "identifier" := in_cond (default [] ids) ]} else ∅ in
  let q := if truthy_dict where_ then update fixed (metadata_filter (default ∅ where_))
           else fixed in
  calls (MongoDB.get self ids where_ limit w).2 = calls w ++ [CallFind name q limit].
Proof.
  intros Hname. destruct limit as [n|].
  - by rewrite (get_run self name).
  - by rewrite (get_run_None self name).
Qed.

Lemma query_loop (citations : bool) (cursor : list record) (a : list context) :
  foldl
    (λ contexts doc,
       if citations then
         contexts ++ [inr (text doc, <["score" := default (PInt 0) (score doc)]> (metadata doc))]
       else contexts ++ [inl (text doc)])
    a cursor
  = a ++ ((λ doc, if citations
                  then inr (text doc, <["score" := default (PInt 0) (score doc)]> (metadata doc))
                  else inl (text doc)) <$> cursor).
Proof.
  revert a. induction cursor as [|doc cursor IH]; intros a; simpl.
  - by rewrite app_nil_r.
  - rewrite IH. by destruct citations; rewrite <-app_assoc.
Qed.

(** The filter [query] builds and the list it returns. *)
Lemma query_run (self : MongoDB) (name : string) (embedder : Embedder)
    (input_query : string) (n_results : Z) (where_ : option pydict)
    (citations : bool) (v : ndarray) (vs : list ndarray) (w : world) :
  self_embedder self = Some embedder →
  embedding_fn embedder [input_query] = v :: vs →
  self_collection_name self = Some name →
  let fixed : filter_doc := {[ "embedding" := near_cond (tolist v) ]} in
  let q := if truthy_dict where_ then update fixed (metadata_filter (default ∅ where_))
           else fixed in
  let cursor := apply_limit (Some n_results)
                  (filter (λ r, matches q r) (collection name w)) in
  MongoDB.query self input_query n_results where_ citations w
  = (Ok ((λ doc, if citations
                 then inr (text doc, <["score" := default (PInt 0) (score doc)]> (metadata doc))
                 else inl (text doc)) <$> cursor),
     log (CallFind name q (Some n_results)) w).
Proof.
  intros Hemb Hvec Hname. unfold MongoDB.query. run.
  rewrite Hemb. run. rewrite Hvec. run. rewrite Hname. run.
  by rewrite query_loop.
Qed.

End running.

Lemma identifier_not_metadata (k : string) : "identifier" ≠ "metadata." +:+ k.
Proof. discriminate. Qed.

Lemma embedding_not_metadata (k : string) : "embedding" ≠ "metadata." +:+ k.
Proof. discriminate. Qed.

Lemma translates_guarded (where_ : pydict) (key : string) (c : pyval) :
  (∀ k, key ≠ "metadata." +:+ k) →
  translates where_ {[ key := c ]}
    (if truthy_dict (Some where_)
     then update {[ key := c ]} (metadata_filter (default ∅ (Some where_)))
     else {[ key := c ]}).
Proof.
  intros Hkey. destruct (truthy_dict (Some where_)) eqn:Ht.
  - by apply translates_update.
  - apply truthy_dict_false in Ht as ->. apply translates_empty.
Qed.

Lemma translates_guarded_empty (where_ : pydict) :
  translates where_ ∅
    (if truthy_dict (Some where_)
     then update ∅ (metadata_filter (default ∅ (Some where_)))
     else ∅).
Proof.
  destruct (truthy_dict (Some where_)) eqn:Ht.
  - unfold update. rewrite (right_id_L ∅ (∪)). apply translates_metadata_filter.
  - apply truthy_dict_false in Ht as ->. apply translates_empty.
Qed.

(** C1.  For every flat mapping [where_], the filter built by the helper
    [_generate_query] and the filters [delete], [get] and [query] send to
    the store hold, for each key [k] of [where_], the entry
    ["metadata." + k] with the value of [k] unchanged, hold no other entry
    than the one the method adds itself (["identifier"] in [get],
    ["embedding"] in [query]), and have as many entries as [where_] has keys
    besides that one. *)
Theorem filter_translation `{Collaborators} (self : MongoDB) (name : string)
    (where_ : pydict) (w : world) :
  self_collection_name self = Some name →
  translates where_ ∅ (MongoDB._generate_query where_) ∧
  (∃ q, calls (MongoDB.delete self (Some where_) w).2 = calls w ++ [CallDeleteMany name q] ∧
        translates where_ ∅ q) ∧
  (∀ ids limit, ∃ q,
     calls (MongoDB.get self ids (Some where_) limit w).2
       = calls w ++ [CallFind name q limit] ∧
     translates where_
       (if truthy_list ids then {[ "identifier" := in_cond (default [] ids) ]} else ∅) q) ∧
  (∀ embedder input_query n_results citations v vs,
     self_embedder self = Some embedder →
     embedding_fn embedder [input_query] = v :: vs →
     ∃ q,
       calls (MongoDB.query self input_query n_results (Some where_) citations w).2
         = calls w ++ [CallFind name q (Some n_results)] ∧
       translates where_ {[ "embedding" := near_cond (tolist v) ]} q).
Proof.
  intros Hname. repeat split.
  - rewrite _generate_query_metadata_filter. apply translates_metadata_filter.
  - rewrite _generate_query_metadata_filter. apply translates_metadata_filter.
  - rewrite _generate_query_metadata_filter. apply translates_metadata_filter.
  - by apply delete_filter.
  - intros ids limit. eexists. split.
    + by apply (get_calls self name).
    + destruct (truthy_list ids).
      * apply translates_guarded, identifier_not_metadata.
      * apply translates_guarded_empty.
  - intros embedder input_query n_results citations v vs Hemb Hvec. eexists. split.
    + by rewrite (query_run self name embedder _ _ _ _ v vs).
    + apply translates_guarded, embedding_not_metadata.
Qed.

Lemma filter_translation_witness :
  self_collection_name demo_self = Some "embedchain_store" ∧
  ∃ q, calls (MongoDB.delete demo_self (Some {[ "kind" := PStr "note" ]}) demo_world).2
         = calls demo_world ++ [CallDeleteMany "embedchain_store" q] ∧
       translates {[ "kind" := PStr "note" ]} ∅ q.
Proof.
  split; [reflexivity|].
  apply (@filter_translation reference demo_self "embedchain_store"
           {[ "kind" := PStr "note" ]} demo_world).
  reflexivity.
Defined.

(** ** Construction and initialization *)

(** C7.  The constructor raises [TypeError] for every argument that is
    neither [None] nor an instance of the configuration class, before
    anything is done: no client is created and no adapter object results.
    For [None] it builds the default configuration and goes on; but the
    database name of that configuration is [None], which the client refuses
    when the constructor selects the database: construction with [None]
    ends in a [TypeError] too, after the client has been created.  An
    instance of the configuration class that names its database is kept as
    it is and handed to the constructor of the base class. *)
Theorem constructor_checks_config `{Collaborators} (w : world) :
  (∀ v, v ≠ PNone → MongoDB.__init__ (Value v) w = (Raise TypeError, w)) ∧
  database_name MongoDbConfig_default = None ∧
  MongoDB.__init__ (Value PNone) w
    = (Raise TypeError, log (CallMongoClient (MONGODB_URI w)) w) ∧
  (∀ c, database_name c = None →
        MongoDB.__init__ (ConfigInstance c) w
        = (Raise TypeError, log (CallMongoClient (MONGODB_URI w)) w)) ∧
  (∀ c db, database_name c = Some db →
        MongoDB.__init__ (ConfigInstance c) w
        = match BaseVectorDB__init__ c (log (CallMongoClient (MONGODB_URI w)) w) with
          | (Ok _, w') =>
              (Ok {| self_config := c;
                     self_embedder_attr := Unassigned;
                     self_collection_name := None |}, w')
          | (Raise e, w') => (Raise e, w')
          end).
Proof.
  split; [|split; [|split; [|split]]].
  - intros v Hv. by destruct v.
  - reflexivity.
  - reflexivity.
  - intros c Hc. unfold MongoDB.__init__. run. by rewrite Hc.
  - intros c db Hc. unfold MongoDB.__init__. run. rewrite Hc. run.
    by destruct (BaseVectorDB__init__ c _) as [[[]|e] w'].
Qed.

Lemma constructor_checks_config_witness :
  PStr "mongodb://localhost" ≠ PNone ∧
  MongoDB.__init__ (H := reference) (Value (PStr "mongodb://localhost")) demo_world
    = (Raise TypeError, demo_world).
Proof.
  split; [discriminate|].
  apply (proj1 (@constructor_checks_config reference demo_world)). discriminate.
Defined.

(** Line 10 of the adapter asks the configuration module for a name it does
    not bind: the class is [MongoDbConfig], the import says
    [MongoDBConfig]. *)
Lemma import_of_config_class_fails : import_MongoDBConfig = Raise ImportError.
Proof. reflexivity. Qed.

(** C6.  Without an embedder [_initialize] raises and leaves the world as
    it was: the log of the calls sent to the store is the one before the
    call, so neither [list_collection_names] nor [create_collection] was
    called.  The error is an [AttributeError] when the attribute has never
    been assigned, and the [ValueError] of the guard when it holds
    [None]. *)
Theorem initialize_requires_embedder `{Collaborators} (self : MongoDB) (w : world) :
  self_embedder self = None →
  ∃ e : exn,
    MongoDB._initialize self w = (Raise e, w) ∧
    (self_embedder_attr self = Unassigned → e = AttributeError) ∧
    (self_embedder_attr self = Assigned None → e = ValueError) ∧
    calls (MongoDB._initialize self w).2 = calls w ∧
    collections (MongoDB._initialize self w).2 = collections w.
Proof.
  unfold self_embedder, MongoDB._initialize. run.
  destruct (self_embedder_attr self) as [|[e|]]; intros Hemb; try done.
  - exists AttributeError. by repeat split.
  - exists ValueError. by repeat split.
Qed.

Lemma initialize_requires_embedder_witness :
  MongoDB._initialize (H := reference)
    {| self_config := @MongoDbConfig_default reference;
       self_embedder_attr := Unassigned;
       self_collection_name := None |} demo_world
  = (Raise AttributeError, demo_world).
Proof.
  destruct (@initialize_requires_embedder reference
              {| self_config := @MongoDbConfig_default reference;
                 self_embedder_attr := Unassigned;
                 self_collection_name := None |} demo_world eq_refl)
    as (e & Hrun & Hunassigned & _).
  rewrite Hrun. by rewrite (Hunassigned eq_refl).
Defined.

Lemma self_embedder_Some `{Collaborators} (self : MongoDB) (e : Embedder) :
  self_embedder self = Some e → self_embedder_attr self = Assigned (Some e).
Proof.
  unfold self_embedder. destruct (self_embedder_attr self) as [|[e'|]]; try done.
  by intros [= ->].
Qed.

(** With an embedder, [_initialize] does go to the store: its first call is
    [list_collection_names]. *)
Lemma initialize_calls_store `{Collaborators} (self : MongoDB) (e : Embedder) (w : world) :
  self_embedder self = Some e →
  ∃ rest, calls (MongoDB._initialize self w).2
          = calls w ++ (CallListCollectionNames :: rest).
Proof.
  intros Hemb. apply self_embedder_Some in Hemb.
  unfold MongoDB._initialize. rewrite Hemb. run.
  case_bool_decide; run.
  - by exists [].
  - unfold create_collection. destruct (collections _ !! _); simpl;
      rewrite <-app_assoc; eauto.
Qed.

(** ** The store *)

Section store.
Context `{Collaborators}.

Lemma matches_spec (q : filter_doc) (r : record) :
  matches q r = true ↔ ∀ k c, q !! k = Some c → entry_matches k c r = true.
Proof.
  unfold matches. rewrite forallb_forall. split.
  - intros Hall k c Hk.
    apply (Hall (k, c)), list_elem_of_In, elem_of_map_to_list, Hk.
  - intros Hall [k c] Hin.
    apply list_elem_of_In, elem_of_map_to_list in Hin. by apply Hall.
Qed.

Lemma matches_empty (r : record) : matches ∅ r = true.
Proof. unfold matches. by rewrite map_to_list_empty. Qed.

Lemma matches_metadata_filter (where_ : pydict) (r : record) :
  matches (metadata_filter where_) r = true ↔
  ∀ k v, where_ !! k = Some v → entry_matches ("metadata." +:+ k) v r = true.
Proof.
  rewrite matches_spec. split.
  - intros Hall k v Hk. apply Hall. by rewrite lookup_metadata_filter.
  - intros Hall key c Hc.
    apply lookup_metadata_filter_Some in Hc as [k [-> Hk]]. by apply Hall.
Qed.

Lemma filter_matches_empty (l : list record) :
  filter (λ r, matches ∅ r) l = l.
Proof.
  induction l as [|r l IH]; [done|].
  rewrite filter_cons_True by (by rewrite matches_empty). by rewrite IH.
Qed.

Lemma length_filter_split (p : record → bool) (l : list record) :
  (length (filter (λ r, negb (p r)) l) + length (filter (λ r, p r) l) = length l)%nat.
Proof.
  induction l as [|r l IH]; [done|].
  rewrite !filter_cons.
  destruct (decide (negb (p r))) as [H1|H1], (decide (p r)) as [H2|H2];
    destruct (p r); simpl in *; try done; lia.
Qed.

Lemma collection_log (name : string) (c : call) (w : world) :
  collection name (log c w) = collection name w.
Proof. done. Qed.

Lemma collection_set_insert (name other : string) (l : list record) (w : world) :
  collection other (set_collections (<[name := l]> (collections w)) w)
  = if decide (name = other) then l else collection other w.
Proof.
  unfold collection. simpl. rewrite lookup_insert. by case_decide.
Qed.

Lemma collection_insert (name other : string) (l : list record)
    (cs : gmap string (list record)) (w : world) :
  collection other (set_collections (<[name := l]> cs) w)
  = if decide (name = other) then l else default [] (cs !! other).
Proof.
  unfold collection. simpl. rewrite lookup_insert. by case_decide.
Qed.

Lemma collection_set_alter (name other : string) (f : list record → list record)
    (w : world) :
  f [] = [] →
  collection other (set_collections (alter f name (collections w)) w)
  = if decide (name = other) then f (collection other w) else collection other w.
Proof.
  intros Hf. unfold collection. simpl. rewrite lookup_alter. case_decide.
  - subst. by destruct (collections w !! other).
  - done.
Qed.

(** What [count] returns. *)
Lemma count_run (self : MongoDB) (name : string) (w : world) :
  self_collection_name self = Some name →
  MongoDB.count self w
  = (Ok (Z.of_nat (length (collection name w))), log (CallCountDocuments name ∅) w).
Proof.
  intros Hname. unfold MongoDB.count. run. rewrite Hname. run.
  by rewrite filter_matches_empty.
Qed.

(** What [delete] does. *)
Lemma delete_run (self : MongoDB) (name : string) (where_ : pydict) (w : world) :
  self_collection_name self = Some name →
  MongoDB.delete self (Some where_) w
  = (Ok tt,
     log (CallDeleteMany name (metadata_filter where_))
       (set_collections
          (alter (filter (λ r, negb (matches (metadata_filter where_) r))) name
             (collections w)) w)).
Proof.
  intros Hname. unfold MongoDB.delete. run. rewrite Hname. by run.
Qed.

(** The collections after [delete]. *)
Lemma delete_effect (self : MongoDB) (name : string) (where_ : pydict) (w : world) :
  self_collection_name self = Some name →
  ∃ w' : world,
    MongoDB.delete self (Some where_) w = (Ok tt, w') ∧
    calls w' = calls w ++ [CallDeleteMany name (metadata_filter where_)] ∧
    heap w' = heap w ∧
    ∀ other,
      collection other w'
      = if decide (name = other)
        then filter (λ r, negb (matches (metadata_filter where_) r)) (collection other w)
        else collection other w.
Proof.
  intros Hname. eexists. split; [by apply delete_run|].
  split; [done|]. split; [done|].
  intros other. rewrite collection_log. by apply collection_set_alter.
Qed.

Lemma filter_not_matches_empty (l : list record) :
  filter (λ r, negb (matches ∅ r)) l = [].
Proof.
  induction l as [|r l IH]; [done|].
  rewrite filter_cons_False; [exact IH|].
  rewrite matches_empty. simpl. tauto.
Qed.

End store.

(** C3.  Whatever the query text and the number of results, [query] returns
    one element per record the store returns for its cursor, in order:
    without citations the text of the record; with citations the pair of the
    text and the metadata of the record in which ["score"] is the score of
    the record, and [0] when the record carries none. *)
Theorem query_result_shape `{Collaborators} (self : MongoDB) (name : string)
    (embedder : Embedder) (input_query : string) (n_results : Z)
    (where_ : option pydict) (v : ndarray) (vs : list ndarray) (w : world) :
  self_embedder self = Some embedder →
  embedding_fn embedder [input_query] = v :: vs →
  self_collection_name self = Some name →
  ∃ (q : filter_doc) (cursor : list record) (w' : world),
    iterate (limit n_results (find name q None)) w = (Ok cursor, w') ∧
    MongoDB.query self input_query n_results where_ false w
      = (Ok (inl ∘ text <$> cursor), w') ∧
    ∃ contexts : list context,
      MongoDB.query self input_query n_results where_ true w = (Ok contexts, w') ∧
      Forall2
        (λ doc context,
           ∃ metadata_ : pydict,
             context = inr (text doc, metadata_) ∧
             metadata_ !! "score" = Some (default (PInt 0) (score doc)) ∧
             (score doc = None → metadata_ !! "score" = Some (PInt 0)) ∧
             (∀ k, k ≠ "score" → metadata_ !! k = metadata doc !! k))
        cursor contexts.
Proof.
  intros Hemb Hvec Hname.
  eexists _, _, _. split; [reflexivity|]. split.
  - by rewrite (query_run self name embedder _ _ _ false v vs).
  - eexists. split.
    + by rewrite (query_run self name embedder _ _ _ true v vs).
    + apply Forall2_fmap_r, Forall_Forall2_diag, Forall_forall.
      intros doc _. eexists. split; [reflexivity|].
      rewrite lookup_insert_eq. repeat split.
      * by intros ->.
      * intros k Hk. by rewrite lookup_insert_ne.
Qed.

Lemma query_result_shape_witness :
  ∃ (q : filter_doc) (cursor : list record) (w' : world),
    iterate (H := reference) (limit 2 (find "embedchain_store" q None)) demo_world
      = (Ok cursor, w') ∧
    MongoDB.query demo_self "note" 2 None false demo_world
      = (Ok (inl ∘ text <$> cursor), w').
Proof.
  destruct (@query_result_shape reference demo_self "embedchain_store" demo_embedder
              "note" 2 None [4] [] demo_world eq_refl eq_refl eq_refl)
    as (q & cursor & w' & Hcursor & Htexts & _).
  exists q, cursor, w'. split; [exact Hcursor|exact Htexts].
Defined.

(** ** Reading: [get] *)

(** C10.  [get] treats an empty list of ids as an absent one and an empty
    [where_] as an absent one: the calls are equal, whatever the limit.
    With neither, the filter sent to the store is empty: for a limit that is
    an int the result is made of all the records of the collection, cut by
    the store to the limit; without a limit the client refuses the call. *)
Theorem get_empty_is_absent `{Collaborators} (self : MongoDB) (name : string)
    (ids : option (list string)) (where_ : option pydict) (limit : option Z)
    (w : world) :
  self_collection_name self = Some name →
  MongoDB.get self (Some []) where_ limit w = MongoDB.get self None where_ limit w ∧
  MongoDB.get self ids (Some ∅) limit w = MongoDB.get self ids None limit w ∧
  (∀ n,
     MongoDB.get self (Some []) (Some ∅) (Some n) w
     = (Ok {| result_ids := identifier <$> apply_limit (Some n) (collection name w);
              result_metadatas := metadata <$> apply_limit (Some n) (collection name w) |},
        log (CallFind name ∅ (Some n)) w)) ∧
  MongoDB.get self (Some []) (Some ∅) None w
    = (Raise TypeError, log (CallFind name ∅ None) w).
Proof.
  intros Hname. split; [|split; [|split]].
  - destruct limit as [n|].
    + by rewrite !(get_run self name).
    + by rewrite !(get_run_None self name).
  - destruct limit as [n|].
    + rewrite !(get_run self name) by done. simpl.
      by destruct (decide (∅ = ∅)).
    + rewrite !(get_run_None self name) by done. simpl.
      by destruct (decide (∅ = ∅)).
  - intros n. rewrite (get_run self name) by done. simpl.
    destruct (decide (∅ = ∅)); [|done].
    by rewrite filter_matches_empty.
  - rewrite (get_run_None self name) by done. simpl.
    by destruct (decide (∅ = ∅)).
Qed.

Lemma get_empty_is_absent_witness :
  MongoDB.get demo_self (Some []) (Some ∅) (Some 2) demo_world
  = (Ok {| result_ids := ["a"; "b"];
           result_metadatas := [{[ "kind" := PStr "note" ]}; {[ "kind" := PStr "page" ]}] |},
     log (CallFind "embedchain_store" ∅ (Some 2)) demo_world).
Proof.
  apply (@get_empty_is_absent reference demo_self "embedchain_store" None None
           (Some 2) demo_world eq_refl).
Defined.

(** ** Deleting *)

(** C4.  [delete] removes from the collection the records that satisfy the
    translated filter, that is the records that satisfy the entry
    ["metadata." + k] of every key [k] of [where_], and keeps the others in
    their order; the other collections are untouched; and [count] afterwards
    is [count] before minus the number of records removed. *)
Theorem delete_removes_matching `{Collaborators} (self : MongoDB) (name : string)
    (where_ : pydict) (w : world) :
  self_collection_name self = Some name →
  ∃ w' : world,
    MongoDB.delete self (Some where_) w = (Ok tt, w') ∧
    calls w' = calls w ++ [CallDeleteMany name (metadata_filter where_)] ∧
    collection name w'
      = filter (λ r, negb (matches (metadata_filter where_) r)) (collection name w) ∧
    (∀ r, r ∈ collection name w' ↔
          r ∈ collection name w ∧
          ¬ (∀ k v, where_ !! k = Some v →
                    entry_matches ("metadata." +:+ k) v r = true)) ∧
    (∀ other, other ≠ name → collection other w' = collection other w) ∧
    ∃ (before after : Z) (w1 w2 : world),
      MongoDB.count self w = (Ok before, w1) ∧
      MongoDB.count self w' = (Ok after, w2) ∧
      after = before
              - Z.of_nat (length (filter (λ r, matches (metadata_filter where_) r)
                                    (collection name w))).
Proof.
  intros Hname. eexists. split; [by apply delete_run|].
  assert (Hcoll : ∀ other,
    collection other
      (log (CallDeleteMany name (metadata_filter where_))
         (set_collections
            (alter (filter (λ r, negb (matches (metadata_filter where_) r))) name
               (collections w)) w))
    = if decide (name = other)
      then filter (λ r, negb (matches (metadata_filter where_) r)) (collection other w)
      else collection other w).
  { intros other. rewrite collection_log. by apply collection_set_alter. }
  split; [done|]. split; [|split; [|split]].
  - rewrite Hcoll. by rewrite decide_True.
  - intros r. rewrite Hcoll, decide_True by done.
    rewrite list_elem_of_filter, <-matches_metadata_filter.
    destruct (matches (metadata_filter where_) r); simpl; naive_solver.
  - intros other Hother. rewrite Hcoll. by rewrite decide_False.
  - eexists _, _, _, _. split; [by apply count_run|]. split; [by apply count_run|].
    rewrite Hcoll, decide_True by done.
    pose proof (length_filter_split (matches (metadata_filter where_))
                  (collection name w)). lia.
Qed.

Lemma delete_removes_matching_witness :
  ∃ w' : world,
    MongoDB.delete demo_self (Some {[ "kind" := PStr "note" ]}) demo_world = (Ok tt, w') ∧
    collection "embedchain_store" w' = [demo_record "b" "page"].
Proof.
  destruct (@delete_removes_matching reference demo_self "embedchain_store"
              {[ "kind" := PStr "note" ]} demo_world eq_refl)
    as (w' & Hrun & _ & Hcoll & _).
  exists w'. split; [exact Hrun|]. rewrite Hcoll. vm_compute. reflexivity.
Defined.

(** C8.  [delete] with the empty mapping sends the empty filter, which
    every record satisfies: the collection is left without records and
    [count] is [0].  [delete] reads the mapping without testing it first:
    where [get], called with a limit, takes an absent [where_] for no
    constraint, [delete] raises. *)
Theorem delete_empty_removes_all `{Collaborators} (self : MongoDB) (name : string)
    (w : world) :
  self_collection_name self = Some name →
  (∃ w' : world,
     MongoDB.delete self (Some ∅) w = (Ok tt, w') ∧
     calls w' = calls w ++ [CallDeleteMany name ∅] ∧
     collection name w' = [] ∧
     (∀ other, other ≠ name → collection other w' = collection other w) ∧
     ∃ w'', MongoDB.count self w' = (Ok 0, w'')) ∧
  MongoDB.delete self None w = (Raise AttributeError, w) ∧
  (∀ ids n, ∃ res w', MongoDB.get self ids None (Some n) w = (Ok res, w')).
Proof.
  intros Hname. split; [|split].
  - destruct (delete_effect self name ∅ w Hname) as (w' & Hrun & Hcalls & _ & Hcoll).
    rewrite metadata_filter_empty in Hcalls, Hcoll.
    assert (Hnil : collection name w' = []).
    { rewrite Hcoll, decide_True by done. apply filter_not_matches_empty. }
    exists w'. split; [exact Hrun|]. split; [exact Hcalls|]. split; [exact Hnil|].
    split; [intros other Hother; by rewrite Hcoll, decide_False|].
    eexists. rewrite (count_run self name) by done. by rewrite Hnil.
  - reflexivity.
  - intros ids n. eexists _, _. by apply get_run.
Qed.

Lemma delete_empty_removes_all_witness :
  ∃ w' : world,
    MongoDB.delete demo_self (Some ∅) demo_world = (Ok tt, w') ∧
    collection "embedchain_store" w' = [].
Proof.
  destruct (@delete_empty_removes_all reference demo_self "embedchain_store"
              demo_world eq_refl)
    as [(w' & Hrun & _ & Hcoll & _) _].
  by exists w'.
Defined.

(** ** Initialization and reset *)

Lemma elem_of_collection_names (cs : gmap string (list record)) (name : string) :
  name ∈ (map_to_list cs).*1 ↔ is_Some (cs !! name).
Proof.
  rewrite list_elem_of_fmap. split.
  - intros [[k l] [-> Hin]]. apply elem_of_map_to_list in Hin. by exists l.
  - intros [l Hl]. exists (name, l). split; [done|]. by apply elem_of_map_to_list.
Qed.

Section reset.
Context `{Collaborators}.

(** What [_initialize] does once the embedder is there. *)
Lemma initialize_run (self : MongoDB) (e : Embedder) (w : world) :
  self_embedder self = Some e →
  let name := collection_name (self_config self) in
  MongoDB._initialize self w
  = (Ok (MongoDB.with_name name self),
     match collections w !! name with
     | Some _ => log CallListCollectionNames w
     | None =>
         log (CallCreateCollection name)
           (set_collections (<[name := []]> (collections w))
              (log CallListCollectionNames w))
     end).
Proof.
  intros Hemb. apply self_embedder_Some in Hemb.
  unfold MongoDB._initialize, MongoDB._get_or_create_collection.
  rewrite Hemb. run. case_bool_decide as Hin.
  - apply elem_of_collection_names in Hin as [l ->]. by run.
  - rewrite elem_of_collection_names, <-eq_None_not_Some in Hin.
    run. unfold create_collection. simpl. by rewrite Hin.
Qed.

(** After [_initialize] the collection exists and the adapter is
    consistent. *)
Lemma initialize_establishes (self : MongoDB) (e : Embedder) (w : world) :
  self_embedder self = Some e →
  ∃ self' w',
    MongoDB._initialize self w = (Ok self', w') ∧
    consistent self' ∧
    self_collection_name self' = Some (collection_name (self_config self')) ∧
    self_embedder self' = Some e ∧
    is_Some (collections w' !! collection_name (self_config self')).
Proof.
  intros Hemb. eexists _, _. split; [by apply (initialize_run self e)|].
  repeat split; try done.
  simpl. destruct (collections w !! collection_name (self_config self)) eqn:Hc; simpl.
  - by rewrite Hc.
  - by rewrite lookup_insert_eq.
Qed.

Lemma constructor_consistent (config : pyobj) (self : MongoDB) (w w' : world) :
  MongoDB.__init__ config w = (Ok self, w') → consistent self.
Proof.
  unfold MongoDB.__init__. run.
  destruct config as [[]|c]; simpl; try (intros Heq; discriminate Heq).
  destruct (database_name c); run; [|intros Heq; discriminate Heq].
  destruct (BaseVectorDB__init__ c _) as [[[]|e] w1]; intros Heq; by simplify_eq.
Qed.

Lemma set_collection_name_consistent (self self' : MongoDB) (name : pyval)
    (w w' : world) :
  MongoDB.set_collection_name self name w = (Ok self', w') → consistent self'.
Proof.
  unfold MongoDB.set_collection_name. run.
  destruct name; simpl; intros Heq; by simplify_eq.
Qed.

Lemma with_name_consistent (self : MongoDB) (name : string) :
  self_collection_name self = Some name →
  MongoDB.with_name name self = self.
Proof. destruct self; simpl. by intros ->. Qed.

(** What [reset] does on a consistent adapter that has its collection name
    and its embedder. *)
Lemma reset_run (self : MongoDB) (e : Embedder) (name : string) (w : world) :
  self_embedder self = Some e →
  consistent self →
  self_collection_name self = Some name →
  MongoDB.reset self w
  = (Ok self,
     log (CallCreateCollection name)
       (set_collections (<[name := []]> (base.delete name (collections w)))
          (log CallListCollectionNames (log (CallDropCollection name) w)))).
Proof.
  intros Hemb Hcons Hname. unfold consistent in Hcons. rewrite Hname in Hcons.
  unfold MongoDB.reset. run. rewrite Hname. run.
  rewrite (initialize_run self e) by done. simpl.
  rewrite <-Hcons, lookup_delete_eq, with_name_consistent by done.
  reflexivity.
Qed.

End reset.

(** ** Writing: [add] *)

Lemma pyval_size_elem (l : list pyval) (x : pyval) :
  x ∈ l → (pyval_size x < pyval_size (PList l))%nat.
Proof. simpl. induction 1 as [x l|x y l _ IH]; simpl; lia. Qed.

Lemma pyval_size_lookup (d : pydict) (k : string) (x : pyval) :
  d !! k = Some x → (pyval_size x < pyval_size (PDict d))%nat.
Proof.
  intros Hk. simpl.
  rewrite (map_fold_delete_L _ _ k x d); [lia| |done].
  intros. lia.
Qed.

(** A deep copy is equal to its original. *)
Lemma deepcopy_id (v : pyval) : deepcopy v = v.
Proof.
  remember (pyval_size v) as n eqn:Hn. revert v Hn.
  induction (lt_wf n) as [n _ IH]. intros v ->.
  destruct v as [| | | |l|d]; try done; simpl; f_equal.
  - rewrite <-(list_fmap_id l) at 2. apply Forall_fmap_ext_1, Forall_forall.
    intros x Hx. eapply IH; [|done]. by apply pyval_size_elem.
  - apply map_eq. intros k. rewrite lookup_fmap.
    destruct (d !! k) as [x|] eqn:Hk; [|done]. simpl. f_equal.
    eapply IH; [|done]. by eapply pyval_size_lookup.
Qed.

Lemma deepcopy_dict_id (d : pydict) : deepcopy_dict d = d.
Proof.
  unfold deepcopy_dict. apply map_eq. intros k. rewrite lookup_fmap.
  destruct (d !! k); simpl; [|done]. by rewrite deepcopy_id.
Qed.

Lemma forget_text_insert (h : gmap loc pydict) (l : loc) (d : pydict) (x : pyval) :
  h !! l = Some d →
  forget_text (<[l := <["text" := x]> d]> h) = forget_text h.
Proof.
  intros Hl. unfold forget_text. rewrite fmap_insert, delete_insert_eq.
  apply insert_id. by rewrite lookup_fmap, Hl.
Qed.

Lemma forget_text_lookup (h h' : gmap loc pydict) (l : loc) (m' : pydict) :
  forget_text h' = forget_text h →
  h' !! l = Some m' →
  ∃ m, h !! l = Some m ∧ ∀ x, <["text" := x]> m' = <["text" := x]> m.
Proof.
  intros Heq Hl. apply (f_equal (λ g, g !! l)) in Heq.
  unfold forget_text in Heq. rewrite !lookup_fmap, Hl in Heq.
  destruct (h !! l) as [m|]; [|done]. simpl in Heq. injection Heq as Heq.
  exists m. split; [done|]. intros x.
  by rewrite <-(insert_delete_eq m'), <-(insert_delete_eq m), Heq.
Qed.

Section add.
Context `{Collaborators}.

Lemma stored_record_ext (id document : string) (m m' : pydict) (v : ndarray) :
  (∀ x, <["text" := x]> m' = <["text" := x]> m) →
  stored_record id document m' v = stored_record id document m v.
Proof. intros Heq. unfold stored_record. by rewrite Heq. Qed.

(** One turn of the loop of [add]. *)
Lemma add_one_run (self : MongoDB) (name id document : string) (l : loc)
    (v : ndarray) (d : pydict) (w : world) :
  self_collection_name self = Some name →
  heap w !! l = Some d →
  MongoDB.add_one self (id, document, l, v) w
  = (Ok tt,
     log (CallInsertOne name (stored_record id document d v))
       (set_collections
          (<[name := collection name w ++ [stored_record id document d v]]>
             (collections w))
          (set_heap (<[l := <["text" := PStr document]> d]> (heap w)) w))).
Proof.
  intros Hname Hl. unfold MongoDB.add_one, setitem, load. run.
  rewrite Hl. simpl. rewrite lookup_insert_eq. run. rewrite Hname. run.
  by rewrite deepcopy_dict_id.
Qed.

(** A mapping that is not a dictionary stops the loop with a [TypeError]. *)
Lemma add_one_not_dict (self : MongoDB) (id document : string) (l : loc)
    (v : ndarray) (w : world) :
  heap w !! l = None →
  MongoDB.add_one self (id, document, l, v) w = (Raise TypeError, w).
Proof.
  intros Hl. unfold MongoDB.add_one, setitem. run. by rewrite Hl.
Qed.

End add.

Lemma for_each_cons {A} (body : A → M unit) (x : A) (l : list A) (w : world) :
  for_each body (x :: l) w
  = match body x w with
    | (Ok _, w') => for_each body l w'
    | (Raise e, w') => (Raise e, w')
    end.
Proof. reflexivity. Qed.

Section add_loop.
Context `{Collaborators}.

(** The loop of [add] over tuples whose mappings are dictionaries: it ends
    without an exception; it appends one record per tuple, built from the
    mapping as it was before the call; it changes no other collection;
    on the heap it changes the ["text"] key of the mappings it was given and
    nothing else; and the last tuple given a mapping decides its ["text"]. *)
Lemma add_loop (self : MongoDB) (name : string) (zs : list item) (w : world) :
  self_collection_name self = Some name →
  Forall (λ z : item, is_Some (heap w !! z.1.2)) zs →
  ∃ (w' : world) (recs : list record),
    for_each (MongoDB.add_one self) zs w = (Ok tt, w') ∧
    collection name w' = collection name w ++ recs ∧
    Forall2 (λ (z : item) r,
               ∃ m, heap w !! z.1.2 = Some m ∧
                    r = stored_record z.1.1.1 z.1.1.2 m z.2) zs recs ∧
    (∀ other, other ≠ name → collection other w' = collection other w) ∧
    forget_text (heap w') = forget_text (heap w) ∧
    (∀ l, l ∉ (λ z : item, z.1.2) <$> zs → heap w' !! l = heap w !! l) ∧
    (∀ zs1 id document l v zs2,
       zs = zs1 ++ (id, document, l, v) :: zs2 →
       l ∉ (λ z : item, z.1.2) <$> zs2 →
       ∃ m, heap w !! l = Some m ∧
            heap w' !! l = Some (<["text" := PStr document]> m)).
Proof.
  intros Hname. revert w.
  induction zs as [|[[[id document] l] v] zs IH]; intros w Hdict.
  - exists w, []. repeat split; try done.
    + by rewrite app_nil_r.
    + intros zs1 ?????. by destruct zs1.
  - apply Forall_cons in Hdict as [[d Hd] Hdict]. simpl in Hd.
    set (w1 := log (CallInsertOne name (stored_record id document d v))
       (set_collections
          (<[name := collection name w ++ [stored_record id document d v]]>
             (collections w))
          (set_heap (<[l := <["text" := PStr document]> d]> (heap w)) w))).
    assert (Hforget : forget_text (heap w1) = forget_text (heap w))
      by (by apply forget_text_insert).
    destruct (IH w1) as (w' & recs & Hrun & Hcoll & Hrecs & Hother & Hft & Hout & Hlast).
    { eapply Forall_impl; [exact Hdict|]. intros z [m Hm]. simpl.
      rewrite lookup_insert. case_decide; eauto. }
    exists w', (stored_record id document d v :: recs).
    split; [|split; [|split; [|split; [|split; [|split]]]]].
    + rewrite for_each_cons, (add_one_run self name _ _ _ _ d) by done. exact Hrun.
    + rewrite Hcoll. unfold w1. rewrite collection_log, collection_insert.
      rewrite decide_True by done. by rewrite <-app_assoc.
    + constructor; [by exists d|].
      eapply Forall2_impl; [exact Hrecs|].
      intros z r [m1 [Hm1 ->]].
      destruct (forget_text_lookup (heap w) (heap w1) z.1.2 m1 Hforget Hm1)
        as [m [Hm Heq]].
      exists m. split; [done|]. by apply stored_record_ext.
    + intros other Hne. rewrite Hother by done.
      unfold w1. rewrite collection_log, collection_insert.
      by rewrite decide_False.
    + by rewrite Hft.
    + intros l' Hl'. rewrite fmap_cons in Hl'. simpl in Hl'.
      apply not_elem_of_cons in Hl' as [Hne Hl'].
      rewrite Hout by done. simpl. by rewrite lookup_insert_ne.
    + intros zs1 id' document' l' v' zs2 Hzs Hl'.
      destruct zs1 as [|z zs1]; simpl in Hzs; simplify_eq.
      * exists d. split; [done|]. rewrite Hout by done.
        simpl. by rewrite lookup_insert_eq.
      * destruct (Hlast zs1 id' document' l' v' zs2 eq_refl Hl') as [m1 [Hm1 Hw']].
        destruct (forget_text_lookup (heap w) (heap w1) l' m1 Hforget Hm1)
          as [m [Hm Heq]].
        exists m. split; [done|]. by rewrite Hw', Heq.
Qed.

End add_loop.

Lemma zip4_lookup {A B C D} (la : list A) (lb : list B) (lc : list C) (ld : list D)
    (i : nat) (a : A) (b : B) (c : C) (d : D) :
  zip4 la lb lc ld !! i = Some (a, b, c, d) ↔
  la !! i = Some a ∧ lb !! i = Some b ∧ lc !! i = Some c ∧ ld !! i = Some d.
Proof.
  revert lb lc ld i.
  induction la as [|a' la IH]; intros [|b' lb] [|c' lc] [|d' ld] i; simpl;
    try (split; [done|intros (? & ? & ? & ?); done]).
  destruct i as [|i]; simpl; [|apply IH].
  split.
  - intros [= -> -> -> ->]. done.
  - intros ([= ->] & [= ->] & [= ->] & [= ->]). done.
Qed.

Lemma zip4_length {A B C D} (la : list A) (lb : list B) (lc : list C) (ld : list D) :
  length la = length lb → length lb = length lc → length lc = length ld →
  length (zip4 la lb lc ld) = length la.
Proof.
  revert lb lc ld.
  induction la as [|a la IH]; intros [|b lb] [|c lc] [|d ld]; simpl; try done.
  intros. f_equal. apply IH; lia.
Qed.

Section add_run.
Context `{Collaborators}.

Lemma zip4_dicts (h : gmap loc pydict) (ids documents : list string)
    (metadatas : list loc) (embeddings : list ndarray) :
  Forall (λ l, is_Some (h !! l)) metadatas →
  Forall (λ z : item, is_Some (h !! z.1.2)) (zip4 ids documents metadatas embeddings).
Proof.
  intros Hall. apply Forall_lookup. intros i [[[id document] l] v] Hi.
  apply zip4_lookup in Hi as (_ & _ & Hl & _).
  by apply (Forall_lookup_1 _ _ _ _ Hall Hl).
Qed.

(** [add] on mappings that are dictionaries, with the embedder and the
    collection name there. *)
Lemma add_run (self : MongoDB) (e : Embedder) (name : string)
    (documents : list string) (metadatas : list loc) (ids : list string) (w : world) :
  self_embedder self = Some e →
  self_collection_name self = Some name →
  Forall (λ l, is_Some (heap w !! l)) metadatas →
  let zs := zip4 ids documents metadatas (embedding_fn e documents) in
  ∃ (w' : world) (recs : list record),
    MongoDB.add self documents metadatas ids w = (Ok tt, w') ∧
    collection name w' = collection name w ++ recs ∧
    Forall2 (λ (z : item) r,
               ∃ m, heap w !! z.1.2 = Some m ∧
                    r = stored_record z.1.1.1 z.1.1.2 m z.2) zs recs ∧
    (∀ other, other ≠ name → collection other w' = collection other w) ∧
    forget_text (heap w') = forget_text (heap w) ∧
    (∀ l, l ∉ (λ z : item, z.1.2) <$> zs → heap w' !! l = heap w !! l) ∧
    (∀ zs1 id document l v zs2,
       zs = zs1 ++ (id, document, l, v) :: zs2 →
       l ∉ (λ z : item, z.1.2) <$> zs2 →
       ∃ m, heap w !! l = Some m ∧
            heap w' !! l = Some (<["text" := PStr document]> m)).
Proof.
  intros Hemb Hname Hdict zs.
  destruct (add_loop self name zs w Hname) as (w' & recs & Hrun & Hrest).
  { by apply zip4_dicts. }
  exists w', recs. split; [|exact Hrest].
  unfold MongoDB.add. run. rewrite Hemb. run. exact Hrun.
Qed.

(** The record [add] stores for the tuple at index [i]. *)
Lemma add_stores (self : MongoDB) (e : Embedder) (name : string)
    (documents : list string) (metadatas : list loc) (ids : list string) (w : world)
    (i : nat) (id document : string) (l : loc) (v : ndarray) (m : pydict) :
  self_embedder self = Some e →
  self_collection_name self = Some name →
  Forall (λ l, is_Some (heap w !! l)) metadatas →
  ids !! i = Some id →
  documents !! i = Some document →
  metadatas !! i = Some l →
  embedding_fn e documents !! i = Some v →
  heap w !! l = Some m →
  ∃ w' : world,
    MongoDB.add self documents metadatas ids w = (Ok tt, w') ∧
    collection name w' !! (length (collection name w) + i)%nat
      = Some (stored_record id document m v).
Proof.
  intros Hemb Hname Hdict Hid Hdoc Hl Hv Hm.
  destruct (add_run self e name documents metadatas ids w Hemb Hname Hdict)
    as (w' & recs & Hrun & Hcoll & Hrecs & _).
  exists w'. split; [done|].
  assert (Hz : zip4 ids documents metadatas (embedding_fn e documents) !! i
               = Some (id, document, l, v)) by (by apply zip4_lookup).
  destruct (Forall2_lookup_l _ _ _ _ _ Hrecs Hz) as (r & Hr & m' & Hm' & ->).
  simpl in Hm'. rewrite Hm in Hm'. injection Hm' as <-.
  rewrite Hcoll, lookup_app_r by lia.
  by replace (length (collection name w) + i - length (collection name w))%nat
    with i by lia.
Qed.

End add_run.

Section add_properties.
Context `{Collaborators}.

Lemma matches_singleton (key : string) (c : pyval) (r : record) :
  matches {[ key := c ]} r = entry_matches key c r.
Proof.
  unfold matches. rewrite map_to_list_singleton. simpl. by rewrite andb_true_r.
Qed.

End add_properties.

(** * Further properties of the adapter *)

(** ** [add] *)

Lemma zip4_length_min {A B C D} (la : list A) (lb : list B) (lc : list C)
    (ld : list D) :
  length (zip4 la lb lc ld)
  = (length la `min` (length lb `min` (length lc `min` length ld)))%nat.
Proof.
  revert lb lc ld.
  induction la as [|a la IH]; intros [|b lb] [|c lc] [|d ld]; simpl; try lia.
  by rewrite IH.
Qed.

Lemma for_each_app {A} (body : A → M unit) (l1 l2 : list A) (w : world) :
  for_each body (l1 ++ l2) w
  = match for_each body l1 w with
    | (Ok _, w') => for_each body l2 w'
    | (Raise e, w') => (Raise e, w')
    end.
Proof.
  revert w. induction l1 as [|x l1 IH]; intros w; [done|].
  rewrite <-app_comm_cons, !for_each_cons.
  destruct (body x w) as [[[]|e] w1]; [apply IH|done].
Qed.

Section add_more.
Context `{Collaborators}.

(** The record of a tuple, with the mapping read from the heap [h]. *)
Lemma stored_records_fmap (h : gmap loc pydict) (zs : list item) (recs : list record) :
  Forall2 (λ (z : item) r,
             ∃ m, h !! z.1.2 = Some m ∧ r = stored_record z.1.1.1 z.1.1.2 m z.2)
          zs recs →
  recs = (λ z : item, stored_record z.1.1.1 z.1.1.2 (default ∅ (h !! z.1.2)) z.2) <$> zs.
Proof.
  induction 1 as [|z r zs recs (m & Hm & ->) _ IH]; [done|].
  rewrite fmap_cons, Hm. simpl. by f_equal.
Qed.

End add_more.

(** X2.  [add] appends to the collection one record per tuple of the zipped
    lists, in their order and after the records already there, and touches no
    other collection; the lists are cut to the shortest of them, so [count]
    grows by the least of the four lengths. *)
Theorem add_appends_in_order `{Collaborators} (self : MongoDB) (e : Embedder)
    (name : string) (documents : list string) (metadatas : list loc)
    (ids : list string) (w : world) :
  self_embedder self = Some e →
  self_collection_name self = Some name →
  Forall (λ l, is_Some (heap w !! l)) metadatas →
  ∃ w' : world,
    MongoDB.add self documents metadatas ids w = (Ok tt, w') ∧
    collection name w'
      = collection name w
        ++ ((λ z : item,
               stored_record z.1.1.1 z.1.1.2 (default ∅ (heap w !! z.1.2)) z.2)
            <$> zip4 ids documents metadatas (embedding_fn e documents)) ∧
    (∀ other, other ≠ name → collection other w' = collection other w) ∧
    ∃ (before after : Z) (w1 w2 : world),
      MongoDB.count self w = (Ok before, w1) ∧
      MongoDB.count self w' = (Ok after, w2) ∧
      after = before
              + Z.of_nat (length ids `min` (length documents `min`
                            (length metadatas `min`
                               length (embedding_fn e documents)))).
Proof.
  intros Hemb Hname Hdict.
  destruct (add_run self e name documents metadatas ids w Hemb Hname Hdict)
    as (w' & recs & Hrun & Hcoll & Hrecs & Hother & _).
  apply stored_records_fmap in Hrecs. subst recs.
  exists w'. split; [exact Hrun|]. split; [exact Hcoll|]. split; [exact Hother|].
  eexists _, _, _, _. split; [by apply count_run|]. split; [by apply count_run|].
  rewrite Hcoll, length_app, length_fmap, zip4_length_min. lia.
Qed.

Lemma add_appends_in_order_witness :
  ∃ w' : world,
    MongoDB.add demo_self ["hello"; "world"] [1%positive] ["x"; "y"; "z"] demo_world
      = (Ok tt, w') ∧
    length (collection "embedchain_store" w') = 4%nat.
Proof.
  destruct (@add_appends_in_order reference demo_self demo_embedder "embedchain_store"
              ["hello"; "world"] [1%positive] ["x"; "y"; "z"] demo_world)
    as (w' & Hadd & Hcoll & _).
  - reflexivity.
  - reflexivity.
  - constructor; [|constructor]. eexists. vm_compute. reflexivity.
  - exists w'. split; [exact Hadd|]. rewrite Hcoll. reflexivity.
Defined.

(** X1.  After [add], [get] with the identifier of a stored tuple and a
    limit returns that identifier and, at the same position, the metadata
    stored for it: the mapping the caller gave with ["text"] set to the
    document.  The store is asked to select the stored record for the
    condition that its identifier is in [[id]], and the limit is one that
    does not cut the selection. *)
Theorem add_then_get `{Collaborators} (self : MongoDB) (e : Embedder) (name : string)
    (documents : list string) (metadatas : list loc) (ids : list string) (w : world)
    (i : nat) (id document : string) (l : loc) (v : ndarray) (m : pydict) (n : Z) :
  self_embedder self = Some e →
  self_collection_name self = Some name →
  Forall (λ l, is_Some (heap w !! l)) metadatas →
  ids !! i = Some id →
  documents !! i = Some document →
  metadatas !! i = Some l →
  embedding_fn e documents !! i = Some v →
  heap w !! l = Some m →
  entry_matches "identifier" (in_cond [id]) (stored_record id document m v) = true →
  (let selection :=
     filter (λ r, matches {[ "identifier" := in_cond [id] ]} r)
       (collection name w
        ++ ((λ z : item,
               stored_record z.1.1.1 z.1.1.2 (default ∅ (heap w !! z.1.2)) z.2)
            <$> zip4 ids documents metadatas (embedding_fn e documents))) in
   apply_limit (Some n) selection = selection) →
  ∃ (w1 : world) (res : get_result) (w2 : world),
    MongoDB.add self documents metadatas ids w = (Ok tt, w1) ∧
    stored_record id document m v ∈ collection name w1 ∧
    MongoDB.get self (Some [id]) None (Some n) w1 = (Ok res, w2) ∧
    id ∈ result_ids res ∧
    <["text" := PStr document]> m ∈ result_metadatas res ∧
    ∃ j, result_ids res !! j = Some id ∧
         result_metadatas res !! j = Some (<["text" := PStr document]> m).
Proof.
  intros Hemb Hname Hdict Hid Hdoc Hl Hv Hm Hmatch Hlimit.
  destruct (add_run self e name documents metadatas ids w Hemb Hname Hdict)
    as (w1 & recs & Hadd & Hcoll & Hrecs & _).
  assert (Hstored : stored_record id document m v ∈ collection name w1).
  { destruct (add_stores self e name documents metadatas ids w i id document l v m)
      as (w1' & Hadd' & Hstored); try done.
    rewrite Hadd in Hadd'. injection Hadd' as <-.
    by eapply list_elem_of_lookup_2. }
  apply stored_records_fmap in Hrecs. subst recs.
  assert (Hsel :
    apply_limit (Some n)
      (filter (λ r, matches {[ "identifier" := in_cond [id] ]} r) (collection name w1))
    = filter (λ r, matches {[ "identifier" := in_cond [id] ]} r) (collection name w1))
    by (rewrite Hcoll; exact Hlimit).
  eexists w1, _, _. split; [exact Hadd|]. split; [exact Hstored|].
  split; [by apply (get_run self name)|].
  simpl. rewrite Hsel.
  assert (Hin : stored_record id document m v
                ∈ filter (λ r, matches {[ "identifier" := in_cond [id] ]} r)
                    (collection name w1)).
  { apply list_elem_of_filter. split; [|done].
    by rewrite matches_singleton, Hmatch. }
  split; [|split].
  - apply list_elem_of_fmap. by exists (stored_record id document m v).
  - apply list_elem_of_fmap. by exists (stored_record id document m v).
  - apply list_elem_of_lookup_1 in Hin as [j Hj]. exists j.
    by rewrite !list_lookup_fmap, Hj.
Qed.

Lemma add_then_get_witness :
  ∃ (w1 : world) (res : get_result) (w2 : world),
    MongoDB.add demo_self ["hello"] [1%positive] ["x"] demo_world = (Ok tt, w1) ∧
    MongoDB.get demo_self (Some ["x"]) None (Some 5) w1 = (Ok res, w2) ∧
    "x" ∈ result_ids res ∧
    <["text" := PStr "hello"]> {[ "kind" := PStr "note" ]} ∈ result_metadatas res.
Proof.
  destruct (@add_then_get reference demo_self demo_embedder "embedchain_store"
              ["hello"] [1%positive] ["x"] demo_world 0 "x" "hello" 1%positive [5]
              {[ "kind" := PStr "note" ]} 5)
    as (w1 & res & w2 & Hadd & _ & Hget & Hid & Hmd & _).
  - reflexivity.
  - reflexivity.
  - constructor; [|constructor]. eexists. vm_compute. reflexivity.
  - reflexivity.
  - reflexivity.
  - reflexivity.
  - reflexivity.
  - vm_compute. reflexivity.
  - vm_compute. reflexivity.
  - vm_compute. reflexivity.
  - exists w1, res, w2. split; [exact Hadd|]. split; [exact Hget|].
    split; [exact Hid|exact Hmd].
Defined.

Lemma forget_text_other_keys (h h' : gmap loc pydict) (l : loc) (m : pydict) :
  forget_text h' = forget_text h →
  h !! l = Some m →
  ∃ m', h' !! l = Some m' ∧ ∀ k, k ≠ "text" → m' !! k = m !! k.
Proof.
  intros Heq Hl.
  destruct (forget_text_lookup h' h l m (eq_sym Heq) Hl) as [m' [Hm' Hins]].
  exists m'. split; [done|]. intros k Hk.
  specialize (Hins PNone). apply (f_equal (λ d, d !! k)) in Hins.
  by rewrite !lookup_insert_ne in Hins.
Qed.

Lemma forget_text_None (h h' : gmap loc pydict) (l : loc) :
  forget_text h' = forget_text h → h !! l = None → h' !! l = None.
Proof.
  intros Heq Hl. apply (f_equal (λ g, g !! l)) in Heq.
  unfold forget_text in Heq. rewrite !lookup_fmap, Hl in Heq.
  by destruct (h' !! l).
Qed.

Lemma last_tuple_of_mapping `{Collaborators} (zs : list item) (l : loc) :
  l ∈ (λ z : item, z.1.2) <$> zs →
  ∃ zs1 id document v zs2,
    zs = zs1 ++ (id, document, l, v) :: zs2 ∧ l ∉ (λ z : item, z.1.2) <$> zs2.
Proof.
  induction zs as [|[[[id document] l'] v] zs IH]; intros Hin.
  - by apply elem_of_nil in Hin.
  - destruct (decide (l ∈ (λ z : item, z.1.2) <$> zs)) as [Hlater|Hlater].
    + destruct (IH Hlater) as (zs1 & id' & document' & v' & zs2 & -> & Hnot).
      by exists ((id, document, l', v) :: zs1), id', document', v', zs2.
    + rewrite fmap_cons in Hin. apply elem_of_cons in Hin as [->|Hin]; [|done].
      by exists [], id, document, v, zs.
Qed.

Lemma flat_insert_text (m : pydict) (document : string) :
  flat m → flat (<["text" := PStr document]> m).
Proof. intros Hm. by apply map_Forall_insert_2. Qed.

(** X3.  On a heap of flat dictionaries (their values are atoms, so no
    dictionary is part of another), [add] writes only the ["text"] key of
    the mappings it is given: every dictionary keeps its other keys, nothing
    is allocated, a mapping that is not among [metadatas] is unchanged, and
    a mapping that no later tuple shares ends with ["text"] set to its
    document.  The record stored for a tuple holds the mapping with
    ["text"] set to the document of that tuple.  The heap stays flat. *)
Theorem add_sets_text `{Collaborators} (self : MongoDB) (e : Embedder)
    (name : string) (documents : list string) (metadatas : list loc)
    (ids : list string) (w : world) :
  self_embedder self = Some e →
  self_collection_name self = Some name →
  Forall (λ l, is_Some (heap w !! l)) metadatas →
  map_Forall (λ _ m, flat m) (heap w) →
  ∃ w' : world,
    MongoDB.add self documents metadatas ids w = (Ok tt, w') ∧
    (∀ l m, heap w !! l = Some m →
       ∃ m', heap w' !! l = Some m' ∧ ∀ k, k ≠ "text" → m' !! k = m !! k) ∧
    (∀ l, heap w !! l = None → heap w' !! l = None) ∧
    (∀ l, l ∉ metadatas → heap w' !! l = heap w !! l) ∧
    (∀ i id document l v m,
       ids !! i = Some id → documents !! i = Some document →
       metadatas !! i = Some l → embedding_fn e documents !! i = Some v →
       heap w !! l = Some m →
       (∃ r, collection name w' !! (length (collection name w) + i)%nat = Some r ∧
             metadata r = <["text" := PStr document]> m) ∧
       ((∀ j, (i < j)%nat → metadatas !! j ≠ Some l) →
        heap w' !! l = Some (<["text" := PStr document]> m))) ∧
    map_Forall (λ _ m, flat m) (heap w').
Proof.
  intros Hemb Hname Hdict Hflat.
  destruct (add_run self e name documents metadatas ids w Hemb Hname Hdict)
    as (w' & recs & Hrun & Hcoll & Hrecs & _ & Hft & Hout & Hlast).
  exists w'. split; [exact Hrun|].
  split; [intros l m; by apply forget_text_other_keys|].
  split; [intros l; by apply forget_text_None|].
  split; [|split].
  - intros l Hl. apply Hout. intros Hin.
    apply list_elem_of_fmap in Hin as [[[[id document] l'] v] [-> Hin]].
    apply list_elem_of_lookup_1 in Hin as [i Hi].
    apply zip4_lookup in Hi as (_ & _ & Hl' & _).
    apply Hl. by eapply list_elem_of_lookup_2.
  - intros i id document l v m Hid Hdoc Hl Hv Hm.
    assert (Hz : zip4 ids documents metadatas (embedding_fn e documents) !! i
                 = Some (id, document, l, v)) by (by apply zip4_lookup).
    split.
    + destruct (Forall2_lookup_l _ _ _ _ _ Hrecs Hz) as (r & Hr & m' & Hm' & ->).
      simpl in Hm'. rewrite Hm in Hm'. injection Hm' as <-.
      exists (stored_record id document m v). split; [|done].
      rewrite Hcoll, lookup_app_r by lia.
      by replace (length (collection name w) + i - length (collection name w))%nat
        with i by lia.
    + intros Hlater.
      destruct (Hlast (take i (zip4 ids documents metadatas (embedding_fn e documents)))
                  id document l v
                  (drop (S i) (zip4 ids documents metadatas (embedding_fn e documents))))
        as [m' [Hm' Hw']].
      * by rewrite take_drop_middle.
      * intros Hin.
        apply list_elem_of_fmap in Hin as [[[[id' document'] l'] v'] [Heq Hin]].
        simpl in Heq. subst l'.
        apply list_elem_of_lookup_1 in Hin as [j Hj].
        rewrite lookup_drop in Hj.
        apply zip4_lookup in Hj as (_ & _ & Hl' & _).
        apply (Hlater (S i + j)%nat); [lia|done].
      * rewrite Hm in Hm'. injection Hm' as <-. exact Hw'.
  - intros l m' Hm'.
    destruct (decide (l ∈ (λ z : item, z.1.2)
                <$> zip4 ids documents metadatas (embedding_fn e documents)))
      as [Hin|Hnot].
    + destruct (last_tuple_of_mapping _ l Hin)
        as (zs1 & id & document & v & zs2 & Hzs & Hlater).
      destruct (Hlast zs1 id document l v zs2 Hzs Hlater) as (m & Hm & Hw').
      rewrite Hm' in Hw'. injection Hw' as ->.
      apply flat_insert_text. by apply (Hflat l).
    + rewrite (Hout l Hnot) in Hm'. by apply (Hflat l).
Qed.

Lemma add_sets_text_witness :
  ∃ w' : world,
    MongoDB.add demo_self ["hello"; "world"] [2%positive; 1%positive] ["x"; "y"]
      demo_world = (Ok tt, w') ∧
    heap w' !! 2%positive
      = Some (<["text" := PStr "hello"]> {[ "kind" := PStr "page" ]}).
Proof.
  destruct (@add_sets_text reference demo_self demo_embedder "embedchain_store"
              ["hello"; "world"] [2%positive; 1%positive] ["x"; "y"] demo_world)
    as (w' & Hadd & _ & _ & _ & Htuple & _).
  - reflexivity.
  - reflexivity.
  - repeat constructor; eexists; vm_compute; reflexivity.
  - apply map_Forall_insert_2; [by apply map_Forall_singleton|].
    apply map_Forall_singleton. by apply map_Forall_singleton.
  - exists w'. split; [exact Hadd|].
    apply (Htuple 0%nat "x" "hello" 2%positive [5] {[ "kind" := PStr "page" ]});
      try reflexivity.
    intros [|[|j]] Hj; [lia|discriminate|discriminate].
Defined.

(** X4.  [add] is not atomic: when the mapping of the tuple at index [i] is
    not a dictionary and those before it are, [add] raises [TypeError]
    there, and the records of the [i] tuples before it stay in the
    collection. *)
Theorem add_stops_at_non_dict `{Collaborators} (self : MongoDB) (e : Embedder)
    (name : string) (documents : list string) (metadatas : list loc)
    (ids : list string) (w : world)
    (i : nat) (id document : string) (l : loc) (v : ndarray) :
  self_embedder self = Some e →
  self_collection_name self = Some name →
  ids !! i = Some id →
  documents !! i = Some document →
  metadatas !! i = Some l →
  embedding_fn e documents !! i = Some v →
  heap w !! l = None →
  (∀ j l', (j < i)%nat → metadatas !! j = Some l' → is_Some (heap w !! l')) →
  ∃ w' : world,
    MongoDB.add self documents metadatas ids w = (Raise TypeError, w') ∧
    collection name w'
      = collection name w
        ++ ((λ z : item,
               stored_record z.1.1.1 z.1.1.2 (default ∅ (heap w !! z.1.2)) z.2)
            <$> take i (zip4 ids documents metadatas (embedding_fn e documents))) ∧
    length (collection name w') = (length (collection name w) + i)%nat.
Proof.
  intros Hemb Hname Hid Hdoc Hl Hv Hnone Hbefore.
  set (zs := zip4 ids documents metadatas (embedding_fn e documents)).
  assert (Hz : zs !! i = Some (id, document, l, v)) by (by apply zip4_lookup).
  destruct (add_loop self name (take i zs) w Hname)
    as (w1 & recs & Hrun & Hcoll & Hrecs & _ & Hft & _).
  { apply Forall_lookup. intros j [[[id' document'] l'] v'] Hj.
    apply lookup_take_Some in Hj as [Hj Hlt].
    apply zip4_lookup in Hj as (_ & _ & Hl' & _). by apply (Hbefore j). }
  apply stored_records_fmap in Hrecs. subst recs.
  exists w1. split; [|split].
  - unfold MongoDB.add. run. rewrite Hemb. run. fold zs.
    rewrite <-(take_drop_middle zs i _ Hz), for_each_app, Hrun, for_each_cons.
    rewrite add_one_not_dict; [done|]. by apply (forget_text_None (heap w)).
  - exact Hcoll.
  - rewrite Hcoll, length_app, length_fmap, length_take.
    apply lookup_lt_Some in Hz. lia.
Qed.

Lemma add_stops_at_non_dict_witness :
  ∃ w' : world,
    MongoDB.add demo_self ["hello"; "world"] [1%positive; 7%positive] ["x"; "y"]
      demo_world = (Raise TypeError, w') ∧
    length (collection "embedchain_store" w') = 4%nat.
Proof.
  destruct (@add_stops_at_non_dict reference demo_self demo_embedder
              "embedchain_store" ["hello"; "world"] [1%positive; 7%positive]
              ["x"; "y"] demo_world 1 "y" "world" 7%positive [5])
    as (w' & Hadd & _ & Hlen); try reflexivity.
  - intros [|j] l' Hj Hl'; [|lia]. injection Hl' as <-. eexists. reflexivity.
  - exists w'. split; [exact Hadd|exact Hlen].
Defined.

(** X5.  Without an embedder [add] and [query] raise [AttributeError] and
    leave the world as it was: no mapping is written and no call is sent to
    the store. *)
Theorem add_query_require_embedder `{Collaborators} (self : MongoDB) (w : world) :
  self_embedder self = None →
  (∀ documents metadatas ids,
     MongoDB.add self documents metadatas ids w = (Raise AttributeError, w)) ∧
  (∀ input_query n_results where_ citations,
     MongoDB.query self input_query n_results where_ citations w
     = (Raise AttributeError, w)).
Proof.
  intros Hemb. split.
  - intros documents metadatas ids. unfold MongoDB.add. run. by rewrite Hemb.
  - intros input_query n_results where_ citations.
    unfold MongoDB.query. run. by rewrite Hemb.
Qed.

Lemma add_query_require_embedder_witness :
  MongoDB.add (H := reference)
    {| self_config := @MongoDbConfig_default reference;
       self_embedder_attr := Unassigned;
       self_collection_name := Some "embedchain_store" |}
    ["hello"] [1%positive] ["x"] demo_world
  = (Raise AttributeError, demo_world).
Proof.
  apply (@add_query_require_embedder reference
           {| self_config := @MongoDbConfig_default reference;
              self_embedder_attr := Unassigned;
              self_collection_name := Some "embedchain_store" |}
           demo_world eq_refl).
Defined.

(** ** [_initialize], [reset] and [set_collection_name] *)

(** X6.  On an adapter that has its embedder and works on the collection of
    its configuration, [reset] returns and leaves the adapter as it was; the
    collection exists without records, so [count] is [0]; the heap and the
    other collections are untouched; and the collection can be used again:
    [add] then fills it with exactly the records of its tuples. *)
Theorem reset_empties_collection `{Collaborators} (self : MongoDB) (e : Embedder)
    (name : string) (w : world) :
  self_embedder self = Some e →
  consistent self →
  self_collection_name self = Some name →
  ∃ w' : world,
    MongoDB.reset self w = (Ok self, w') ∧
    collections w' !! name = Some [] ∧
    (∀ other, other ≠ name → collections w' !! other = collections w !! other) ∧
    heap w' = heap w ∧
    calls w' = calls w ++ [CallDropCollection name; CallListCollectionNames;
                           CallCreateCollection name] ∧
    (∃ w'', MongoDB.count self w' = (Ok 0, w'')) ∧
    (∀ documents metadatas ids,
       Forall (λ l, is_Some (heap w !! l)) metadatas →
       ∃ w'', MongoDB.add self documents metadatas ids w' = (Ok tt, w'') ∧
              collection name w''
              = (λ z : item,
                   stored_record z.1.1.1 z.1.1.2 (default ∅ (heap w !! z.1.2)) z.2)
                <$> zip4 ids documents metadatas (embedding_fn e documents)).
Proof.
  intros Hemb Hcons Hname. eexists.
  split; [by apply (reset_run self e name)|].
  split; [simpl; by rewrite lookup_insert_eq|].
  split; [intros other Hother; simpl;
          by rewrite lookup_insert_ne, lookup_delete_ne by done|].
  split; [done|].
  split; [simpl; by rewrite <-!app_assoc|].
  split.
  - eexists. rewrite (count_run self name) by done.
    unfold collection. simpl. by rewrite lookup_insert_eq.
  - intros documents metadatas ids Hdict.
    match goal with |- ∃ w'', MongoDB.add _ _ _ _ ?w1 = _ ∧ _ => set (w' := w1) end.
    destruct (add_run self e name documents metadatas ids w' Hemb Hname Hdict)
      as (w'' & recs & Hrun & Hcoll & Hrecs & _).
    apply stored_records_fmap in Hrecs. subst recs.
    exists w''. split; [exact Hrun|]. rewrite Hcoll.
    unfold collection at 1. simpl. by rewrite lookup_insert_eq.
Qed.

Lemma reset_empties_collection_witness :
  ∃ w' w'' : world,
    MongoDB.reset demo_self demo_world = (Ok demo_self, w') ∧
    MongoDB.count demo_self w' = (Ok 0, w'').
Proof.
  destruct (@reset_empties_collection reference demo_self demo_embedder
              "embedchain_store" demo_world eq_refl eq_refl eq_refl)
    as (w' & Hreset & _ & _ & _ & _ & [w'' Hcount] & _).
  exists w', w''. split; [exact Hreset|exact Hcount].
Defined.

(** X7.  [reset] drops before it initializes: without an embedder it
    raises after the collection has been dropped, and the collection is not
    created again.  The error is the one of [_initialize]: an
    [AttributeError] when the embedder has never been assigned, a
    [ValueError] when it is [None]. *)
Theorem reset_without_embedder_drops `{Collaborators} (self : MongoDB)
    (name : string) (w : world) :
  self_embedder self = None →
  self_collection_name self = Some name →
  ∃ (e : exn) (w' : world),
    MongoDB.reset self w = (Raise e, w') ∧
    (self_embedder_attr self = Unassigned → e = AttributeError) ∧
    (self_embedder_attr self = Assigned None → e = ValueError) ∧
    collections w' = base.delete name (collections w) ∧
    collections w' !! name = None ∧
    calls w' = calls w ++ [CallDropCollection name].
Proof.
  intros Hemb Hname. unfold MongoDB.reset. run. rewrite Hname. run.
  unfold self_embedder in Hemb. unfold MongoDB._initialize. run.
  destruct (self_embedder_attr self) as [|[e|]]; try done.
  - eexists AttributeError, _. split; [reflexivity|].
    repeat split; try done. simpl. by rewrite lookup_delete_eq.
  - eexists ValueError, _. split; [reflexivity|].
    repeat split; try done. simpl. by rewrite lookup_delete_eq.
Qed.

Lemma reset_without_embedder_drops_witness :
  ∃ w' : world,
    MongoDB.reset (H := reference)
      {| self_config := @MongoDbConfig_default reference;
         self_embedder_attr := Unassigned;
         self_collection_name := Some "embedchain_store" |} demo_world
    = (Raise AttributeError, w') ∧
    collections w' !! "embedchain_store" = None.
Proof.
  destruct (@reset_without_embedder_drops reference
              {| self_config := @MongoDbConfig_default reference;
                 self_embedder_attr := Unassigned;
                 self_collection_name := Some "embedchain_store" |}
              "embedchain_store" demo_world eq_refl eq_refl)
    as (e & w' & Hreset & Hunassigned & _ & _ & Hnone & _).
  exists w'. rewrite (Hunassigned eq_refl) in Hreset.
  split; [exact Hreset|exact Hnone].
Defined.

(** X8.  With an embedder [_initialize] returns the adapter working on the
    collection of its configuration; afterwards that collection exists; no
    record of any collection is added or removed; and a second
    [_initialize] finds the collection and sends no [create_collection]. *)
Theorem initialize_keeps_records `{Collaborators} (self : MongoDB) (e : Embedder)
    (w : world) :
  self_embedder self = Some e →
  ∃ (self' : MongoDB) (w' : world),
    MongoDB._initialize self w = (Ok self', w') ∧
    self_collection_name self' = Some (collection_name (self_config self)) ∧
    self_config self' = self_config self ∧
    self_embedder self' = Some e ∧
    is_Some (collections w' !! collection_name (self_config self)) ∧
    (∀ other, collection other w' = collection other w) ∧
    heap w' = heap w ∧
    MongoDB._initialize self' w' = (Ok self', log CallListCollectionNames w').
Proof.
  intros Hemb. eexists _, _. split; [by apply (initialize_run self e)|].
  split; [done|]. split; [done|]. split; [done|].
  destruct (collections w !! collection_name (self_config self)) as [l|] eqn:Hc.
  - split; [simpl; by rewrite Hc|]. split; [done|]. split; [done|].
    rewrite (initialize_run _ e) by done. simpl. by rewrite Hc.
  - split; [simpl; by rewrite lookup_insert_eq|]. split; [|split; [done|]].
    + intros other. rewrite collection_log, collection_insert.
      case_decide; [|done]. subst. unfold collection. by rewrite Hc.
    + rewrite (initialize_run _ e) by done. simpl. by rewrite lookup_insert_eq.
Qed.

Lemma initialize_keeps_records_witness :
  ∃ (self' : MongoDB) (w' : world),
    MongoDB._initialize demo_self demo_world = (Ok self', w') ∧
    collection "embedchain_store" w' = collection "embedchain_store" demo_world.
Proof.
  destruct (@initialize_keeps_records reference demo_self demo_embedder demo_world
              eq_refl)
    as (self' & w' & Hinit & _ & _ & _ & _ & Hcoll & _).
  exists self', w'. split; [exact Hinit|apply Hcoll].
Defined.

(** X9.  [set_collection_name] accepts strings only: any other value raises
    [TypeError] and changes nothing.  For a string it sets the name in the
    configuration and in the adapter, keeps the embedder and the other
    fields of the configuration, and sends nothing to the store: the
    collection is not created, and [count] then counts the records the
    collection of that name has. *)
Theorem set_collection_name_switches `{Collaborators} (self : MongoDB) (w : world) :
  (∀ v, (∀ s, v ≠ PStr s) →
        MongoDB.set_collection_name self v w = (Raise TypeError, w)) ∧
  (∀ name, ∃ self' : MongoDB,
     MongoDB.set_collection_name self (PStr name) w = (Ok self', w) ∧
     self_collection_name self' = Some name ∧
     collection_name (self_config self') = name ∧
     consistent self' ∧
     self_embedder self' = self_embedder self ∧
     with_collection_name (collection_name (self_config self)) (self_config self')
       = with_collection_name (collection_name (self_config self)) (self_config self) ∧
     MongoDB.count self' w
       = (Ok (Z.of_nat (length (collection name w))),
          log (CallCountDocuments name ∅) w)).
Proof.
  split.
  - intros v Hv. destruct v; try done. by destruct (Hv s).
  - intros name. eexists. split; [reflexivity|].
    repeat split. by apply count_run.
Qed.

Lemma set_collection_name_switches_witness :
  (∀ s, PInt 3 ≠ PStr s) ∧
  MongoDB.set_collection_name demo_self (PInt 3) demo_world
  = (Raise TypeError, demo_world).
Proof.
  split; [discriminate|].
  apply (proj1 (@set_collection_name_switches reference demo_self demo_world)).
  discriminate.
Defined.

(** X10.  Before a collection name has been assigned, [get], [count],
    [delete] and [reset] raise [AttributeError] and leave the world as it
    was; [query] does so once it has its vector; and [add] raises it after
    it has written ["text"] in the first mapping, which stays written. *)
Theorem unset_collection_name_raises `{Collaborators} (self : MongoDB) (w : world) :
  self_collection_name self = None →
  (∀ ids where_ limit,
     MongoDB.get self ids where_ limit w = (Raise AttributeError, w)) ∧
  MongoDB.count self w = (Raise AttributeError, w) ∧
  (∀ where_, MongoDB.delete self where_ w = (Raise AttributeError, w)) ∧
  MongoDB.reset self w = (Raise AttributeError, w) ∧
  (∀ e input_query n_results where_ citations v vs,
     self_embedder self = Some e →
     embedding_fn e [input_query] = v :: vs →
     MongoDB.query self input_query n_results where_ citations w
     = (Raise AttributeError, w)) ∧
  (∀ e id ids document documents l metadatas v vs m,
     self_embedder self = Some e →
     embedding_fn e (document :: documents) = v :: vs →
     heap w !! l = Some m →
     MongoDB.add self (document :: documents) (l :: metadatas) (id :: ids) w
     = (Raise AttributeError,
        set_heap (<[l := <["text" := PStr document]> m]> (heap w)) w)).
Proof.
  intros Hname. repeat split.
  - intros ids where_ limit. unfold MongoDB.get. run. by rewrite Hname.
  - unfold MongoDB.count. run. by rewrite Hname.
  - intros [where_|]; unfold MongoDB.delete; run; [by rewrite Hname|done].
  - unfold MongoDB.reset. run. by rewrite Hname.
  - intros e input_query n_results where_ citations v vs Hemb Hvec.
    unfold MongoDB.query. run. rewrite Hemb. run. rewrite Hvec. run.
    by rewrite Hname.
  - intros e id ids document documents l metadatas v vs m Hemb Hvec Hm.
    unfold MongoDB.add. run. rewrite Hemb. run. rewrite Hvec.
    simpl zip4. rewrite for_each_cons.
    unfold MongoDB.add_one, setitem, load. run. rewrite Hm. simpl.
    rewrite lookup_insert_eq. run. by rewrite Hname.
Qed.

Lemma unset_collection_name_raises_witness :
  MongoDB.count (H := reference)
    {| self_config := @MongoDbConfig_default reference;
       self_embedder_attr := Assigned (Some demo_embedder);
       self_collection_name := None |} demo_world
  = (Raise AttributeError, demo_world).
Proof.
  apply (@unset_collection_name_raises reference
           {| self_config := @MongoDbConfig_default reference;
              self_embedder_attr := Assigned (Some demo_embedder);
              self_collection_name := None |} demo_world eq_refl).
Defined.

(** ** [query], [get] and [delete] *)

(** X11.  When the embedder returns no vector for the query text, [query]
    raises [IndexError] and nothing is sent to the store. *)
Theorem query_requires_vector `{Collaborators} (self : MongoDB) (e : Embedder)
    (input_query : string) (n_results : Z) (where_ : option pydict)
    (citations : bool) (w : world) :
  self_embedder self = Some e →
  embedding_fn e [input_query] = [] →
  MongoDB.query self input_query n_results where_ citations w = (Raise IndexError, w).
Proof.
  intros Hemb Hvec. unfold MongoDB.query. run. rewrite Hemb. run. by rewrite Hvec.
Qed.

Lemma query_requires_vector_witness :
  MongoDB.query (H := reference)
    {| self_config := @MongoDbConfig_default reference;
       self_embedder_attr := Assigned (Some {| embedding_fn := λ _, [] |});
       self_collection_name := Some "embedchain_store" |}
    "note" 2 None true demo_world
  = (Raise IndexError, demo_world).
Proof.
  apply (@query_requires_vector reference
           {| self_config := @MongoDbConfig_default reference;
              self_embedder_attr := Assigned (Some {| embedding_fn := λ _, [] |});
              self_collection_name := Some "embedchain_store" |}
           {| embedding_fn := λ _, [] |} "note" 2 None true demo_world
           eq_refl eq_refl).
Defined.

(** With a mapping given, the guard of [get] makes no difference: the
    filter is the translation of the mapping on top of the identifier
    entry. *)
Lemma get_run_where `{Collaborators} (self : MongoDB) (name : string)
    (ids : option (list string)) (where_ : pydict) (n : Z) (w : world) :
  self_collection_name self = Some name →
  let fixed : filter_doc :=
    if truthy_list ids then {[ "identifier" := in_cond (default [] ids) ]} else ∅ in
  let q := update fixed (metadata_filter where_) in
  let cursor := apply_limit (Some n) (filter (λ r, matches q r) (collection name w)) in
  MongoDB.get self ids (Some where_) (Some n) w
  = (Ok {| result_ids := identifier <$> cursor;
           result_metadatas := metadata <$> cursor |},
     log (CallFind name q (Some n)) w).
Proof.
  intros Hname. rewrite (get_run self name) by done. cbv zeta.
  destruct (truthy_dict (Some where_)) eqn:Ht; [done|].
  apply truthy_dict_false in Ht as ->.
  unfold update. by rewrite metadata_filter_empty, (left_id_L ∅ (∪)).
Qed.

(** X12.  The two lists [get] returns for a limit are aligned and come from
    the collection: they have the same length, and the identifier and the
    metadata at a position are those of one record of the collection that
    satisfies the entry ["metadata." + k] of every key [k] of [where_].  The
    store is asked to return records of the selection only. *)
Theorem get_returns_matching `{Collaborators} (self : MongoDB) (name : string)
    (ids : option (list string)) (where_ : pydict) (n : Z) (w : world) :
  self_collection_name self = Some name →
  (∀ l r, r ∈ apply_limit (Some n) l → r ∈ l) →
  ∃ (res : get_result) (w' : world),
    MongoDB.get self ids (Some where_) (Some n) w = (Ok res, w') ∧
    length (result_ids res) = length (result_metadatas res) ∧
    ∀ j id md,
      result_ids res !! j = Some id →
      result_metadatas res !! j = Some md →
      ∃ r, r ∈ collection name w ∧ identifier r = id ∧ metadata r = md ∧
           ∀ k v, where_ !! k = Some v →
                  entry_matches ("metadata." +:+ k) v r = true.
Proof.
  intros Hname Hlimit. eexists _, _. split; [by apply (get_run_where self name)|].
  cbv zeta. cbn [result_ids result_metadatas].
  split; [by rewrite !length_fmap|].
  intros j id md Hid Hmd.
  rewrite list_lookup_fmap in Hid. rewrite list_lookup_fmap in Hmd.
  destruct (apply_limit (Some n) _ !! j) as [r|] eqn:Hr; [|done].
  simpl in Hid, Hmd. injection Hid as <-. injection Hmd as <-.
  apply list_elem_of_lookup_2, Hlimit, list_elem_of_filter in Hr as [Hmatch Hin].
  exists r. repeat split; try done.
  intros k v Hk. apply Is_true_eq_true in Hmatch.
  rewrite matches_spec in Hmatch. apply Hmatch.
  unfold update. apply lookup_union_Some_l. by rewrite lookup_metadata_filter.
Qed.

Lemma get_returns_matching_witness :
  ∃ (res : get_result) (w' : world),
    MongoDB.get demo_self None (Some {[ "kind" := PStr "note" ]}) (Some 1) demo_world
      = (Ok res, w') ∧
    length (result_ids res) = length (result_metadatas res).
Proof.
  destruct (@get_returns_matching reference demo_self "embedchain_store" None
              {[ "kind" := PStr "note" ]} 1 demo_world eq_refl)
    as (res & w' & Hget & Hlen & _).
  - intros l r Hr. simpl in Hr. apply list_elem_of_lookup_1 in Hr as [j Hj].
    apply lookup_take_Some in Hj as [Hj _]. by eapply list_elem_of_lookup_2.
  - exists res, w'. split; [exact Hget|exact Hlen].
Defined.

Lemma filter_matches_after_delete `{Collaborators} (q : filter_doc) (l : list record) :
  filter (λ r, matches q r) (filter (λ r, negb (matches q r)) l) = [].
Proof.
  induction l as [|r l IH]; [done|].
  destruct (matches q r) eqn:Hq.
  - rewrite (filter_cons_False (λ r, negb (matches q r))); [done|].
    rewrite Hq. simpl. tauto.
  - rewrite (filter_cons_True (λ r, negb (matches q r))) by (by rewrite Hq).
    rewrite filter_cons_False; [done|]. rewrite Hq. simpl. tauto.
Qed.

Lemma filter_not_matches_idemp `{Collaborators} (q : filter_doc) (l : list record) :
  filter (λ r, negb (matches q r)) (filter (λ r, negb (matches q r)) l)
  = filter (λ r, negb (matches q r)) l.
Proof.
  induction l as [|r l IH]; [done|].
  destruct (matches q r) eqn:Hq.
  - rewrite (filter_cons_False (λ r, negb (matches q r))); [done|].
    rewrite Hq. simpl. tauto.
  - rewrite (filter_cons_True (λ r, negb (matches q r))) by (by rewrite Hq).
    rewrite filter_cons_True by (by rewrite Hq). by rewrite IH.
Qed.

(** X13.  After [delete] with a mapping, [get] with the same mapping and a
    limit finds nothing: both lists are empty.  The store is asked to return
    nothing for an empty selection. *)
Theorem delete_then_get_empty `{Collaborators} (self : MongoDB) (name : string)
    (where_ : pydict) (n : Z) (w : world) :
  self_collection_name self = Some name →
  apply_limit (Some n) [] = [] →
  ∃ w1 w2 : world,
    MongoDB.delete self (Some where_) w = (Ok tt, w1) ∧
    MongoDB.get self None (Some where_) (Some n) w1
    = (Ok {| result_ids := []; result_metadatas := [] |}, w2).
Proof.
  intros Hname Hlimit.
  destruct (delete_effect self name where_ w Hname) as (w1 & Hdel & _ & _ & Hcoll).
  eexists w1, _. split; [exact Hdel|].
  rewrite (get_run_where self name) by done. cbv zeta. simpl truthy_list. cbv iota.
  unfold update. rewrite (right_id_L ∅ (∪)).
  rewrite Hcoll, decide_True by done.
  by rewrite filter_matches_after_delete, Hlimit.
Qed.

Lemma delete_then_get_empty_witness :
  ∃ w1 w2 : world,
    MongoDB.delete demo_self (Some {[ "kind" := PStr "note" ]}) demo_world = (Ok tt, w1) ∧
    MongoDB.get demo_self None (Some {[ "kind" := PStr "note" ]}) (Some 5) w1
    = (Ok {| result_ids := []; result_metadatas := [] |}, w2).
Proof.
  apply (@delete_then_get_empty reference demo_self "embedchain_store"
           {[ "kind" := PStr "note" ]} 5 demo_world eq_refl eq_refl).
Defined.

(** X14.  [delete] is idempotent on the store: a second [delete] with the
    same mapping removes nothing more. *)
Theorem delete_idempotent `{Collaborators} (self : MongoDB) (name : string)
    (where_ : pydict) (w : world) :
  self_collection_name self = Some name →
  ∃ w1 w2 : world,
    MongoDB.delete self (Some where_) w = (Ok tt, w1) ∧
    MongoDB.delete self (Some where_) w1 = (Ok tt, w2) ∧
    collections w2 = collections w1 ∧
    heap w2 = heap w1.
Proof.
  intros Hname. eexists _, _.
  split; [by apply delete_run|]. split; [by apply delete_run|].
  split; [|done]. simpl. apply map_eq. intros other.
  destruct (decide (name = other)) as [->|Hne].
  - rewrite !lookup_alter_eq.
    destruct (collections w !! other) as [l|]; simpl; [|done].
    by rewrite filter_not_matches_idemp.
  - by rewrite !lookup_alter_ne.
Qed.

Lemma delete_idempotent_witness :
  ∃ w1 w2 : world,
    MongoDB.delete demo_self (Some {[ "kind" := PStr "note" ]}) demo_world = (Ok tt, w1) ∧
    MongoDB.delete demo_self (Some {[ "kind" := PStr "note" ]}) w1 = (Ok tt, w2) ∧
    collections w2 = collections w1.
Proof.
  destruct (@delete_idempotent reference demo_self "embedchain_store"
              {[ "kind" := PStr "note" ]} demo_world eq_refl)
    as (w1 & w2 & H1 & H2 & H3 & _).
  exists w1, w2. split; [exact H1|]. split; [exact H2|exact H3].
Defined.

(** X15.  [get], [query] and [count] only read: whatever they return or
    raise, the collections and the heap are as before. *)
Theorem reads_leave_store `{Collaborators} (self : MongoDB) (w : world) :
  (∀ ids where_ limit,
     collections (MongoDB.get self ids where_ limit w).2 = collections w ∧
     heap (MongoDB.get self ids where_ limit w).2 = heap w) ∧
  (∀ input_query n_results where_ citations,
     collections (MongoDB.query self input_query n_results where_ citations w).2
       = collections w ∧
     heap (MongoDB.query self input_query n_results where_ citations w).2 = heap w) ∧
  collections (MongoDB.count self w).2 = collections w ∧
  heap (MongoDB.count self w).2 = heap w.
Proof.
  split; [|split].
  - intros ids where_ limit. unfold MongoDB.get. run.
    destruct (self_collection_name self); run; [|done].
    destruct limit; run; [|done].
    by destruct (foldl _ _ _).
  - intros input_query n_results where_ citations. unfold MongoDB.query. run.
    destruct (self_embedder self) as [e|]; run; [|done].
    destruct (embedding_fn e [input_query]); run; [done|].
    by destruct (self_collection_name self).
  - unfold MongoDB.count. run. by destruct (self_collection_name self).
Qed.

(** X16.  The helper [_generate_query] builds the filter [delete] builds
    inline: [delete] sends to the store [_generate_query] of its mapping. *)
Theorem delete_sends_generate_query `{Collaborators} (self : MongoDB) (name : string)
    (where_ : pydict) (w : world) :
  self_collection_name self = Some name →
  calls (MongoDB.delete self (Some where_) w).2
  = calls w ++ [CallDeleteMany name (MongoDB._generate_query where_)].
Proof.
  intros Hname. rewrite (delete_run self name) by done.
  by rewrite _generate_query_metadata_filter.
Qed.

Lemma delete_sends_generate_query_witness :
  calls (MongoDB.delete demo_self (Some {[ "kind" := PStr "note" ]}) demo_world).2
  = calls demo_world
    ++ [CallDeleteMany "embedchain_store"
          (MongoDB._generate_query {[ "kind" := PStr "note" ]})].
Proof.
  apply (@delete_sends_generate_query reference demo_self "embedchain_store"
           {[ "kind" := PStr "note" ]} demo_world eq_refl).
Defined.

(** X17.  Every element [query] returns comes from a record of the
    collection that satisfies the ["embedding"] entry built from the vector
    of the query text and the entry ["metadata." + k] of every key [k] of
    [where_].  The store is asked to return records of the selection
    only. *)
Theorem query_returns_matching `{Collaborators} (self : MongoDB) (name : string)
    (e : Embedder) (input_query : string) (n_results : Z) (where_ : pydict)
    (citations : bool) (v : ndarray) (vs : list ndarray) (w : world) :
  self_embedder self = Some e →
  embedding_fn e [input_query] = v :: vs →
  self_collection_name self = Some name →
  (∀ l r, r ∈ apply_limit (Some n_results) l → r ∈ l) →
  ∃ (contexts : list context) (w' : world),
    MongoDB.query self input_query n_results (Some where_) citations w
      = (Ok contexts, w') ∧
    ∀ c, c ∈ contexts →
      ∃ r, r ∈ collection name w ∧
           c = (if citations
                then inr (text r, <["score" := default (PInt 0) (score r)]> (metadata r))
                else inl (text r)) ∧
           entry_matches "embedding" (near_cond (tolist v)) r = true ∧
           ∀ k x, where_ !! k = Some x →
                  entry_matches ("metadata." +:+ k) x r = true.
Proof.
  intros Hemb Hvec Hname Hlimit. eexists _, _.
  split; [by apply (query_run self name e _ _ _ _ v vs)|].
  cbv zeta. intros c Hc.
  apply list_elem_of_fmap in Hc as [r [-> Hr]].
  apply Hlimit, list_elem_of_filter in Hr as [Hmatch Hin].
  apply Is_true_eq_true in Hmatch. rewrite matches_spec in Hmatch.
  exists r. split; [done|]. split; [done|].
  destruct (truthy_dict (Some where_)) eqn:Ht.
  - split.
    + apply Hmatch. unfold update. apply lookup_union_Some_raw. right.
      split; [|by rewrite lookup_singleton_eq].
      destruct (metadata_filter where_ !! "embedding") as [c|] eqn:Hc; [|done].
      apply lookup_metadata_filter_Some in Hc as [k [Hk _]].
      by destruct (embedding_not_metadata k).
    + intros k x Hk. apply Hmatch. unfold update.
      apply lookup_union_Some_l. by rewrite lookup_metadata_filter.
  - apply truthy_dict_false in Ht as ->. split.
    + apply Hmatch. by rewrite lookup_singleton_eq.
    + intros k x Hk. by rewrite lookup_empty in Hk.
Qed.

Lemma query_returns_matching_witness :
  ∃ (contexts : list context) (w' : world),
    MongoDB.query demo_self "note" 2 (Some {[ "kind" := PStr "note" ]}) false demo_world
    = (Ok contexts, w').
Proof.
  destruct (@query_returns_matching reference demo_self "embedchain_store"
              demo_embedder "note" 2 {[ "kind" := PStr "note" ]} false [4] []
              demo_world eq_refl eq_refl eq_refl)
    as (contexts & w' & Hquery & _).
  - intros l r Hr. simpl in Hr. apply list_elem_of_lookup_1 in Hr as [j Hj].
    apply lookup_take_Some in Hj as [Hj _]. by eapply list_elem_of_lookup_2.
  - exists contexts, w'. exact Hquery.
Defined.

(** X18.  A name given with [set_collection_name] survives
    initialization: [_initialize] afterwards works on that name, because the
    name was written into the configuration too, and makes sure the
    collection of that name exists. *)
Theorem renamed_collection_survives_initialize `{Collaborators} (self : MongoDB)
    (e : Embedder) (name : string) (w : world) :
  self_embedder self = Some e →
  ∃ (self1 self2 : MongoDB) (w' : world),
    MongoDB.set_collection_name self (PStr name) w = (Ok self1, w) ∧
    MongoDB._initialize self1 w = (Ok self2, w') ∧
    self2 = self1 ∧
    self_collection_name self2 = Some name ∧
    is_Some (collections w' !! name) ∧
    ∀ other, collection other w' = collection other w.
Proof.
  intros Hemb. eexists _, _, _. split; [reflexivity|].
  split; [by apply (initialize_run _ e)|].
  split; [done|]. split; [done|]. simpl.
  destruct (collections w !! name) as [l|] eqn:Hc.
  - split; [simpl; by rewrite Hc|done].
  - split; [simpl; by rewrite lookup_insert_eq|].
    intros other. rewrite collection_log, collection_insert.
    case_decide; [|done]. subst. unfold collection. by rewrite Hc.
Qed.

Lemma renamed_collection_survives_initialize_witness :
  ∃ (self1 self2 : MongoDB) (w' : world),
    MongoDB.set_collection_name demo_self (PStr "notes") demo_world
      = (Ok self1, demo_world) ∧
    MongoDB._initialize self1 demo_world = (Ok self2, w') ∧
    self_collection_name self2 = Some "notes" ∧
    is_Some (collections w' !! "notes").
Proof.
  destruct (@renamed_collection_survives_initialize reference demo_self
              demo_embedder "notes" demo_world eq_refl)
    as (self1 & self2 & w' & Hset & Hinit & _ & Hname & Hexists & _).
  exists self1, self2, w'. split; [exact Hset|]. split; [exact Hinit|].
  split; [exact Hname|exact Hexists].
Defined.
